(** * Column standardisation of [standardize_data_copy.py]

    A shallow embedding of the column-reconciliation core of
    [standardize_data] and [remove_column_numbering], with the part of the
    pandas [DataFrame] behaviour that the two functions rely on.

    Conventions of the embedding
    - a column label is a Python [str]; the 256 values of [ascii] are read as
      the code points U+0000..U+00FF, where the decimal digits matched by
      [\d] are exactly ['0'..'9'].  Labels that are not text (the number or
      the date that [pd.read_excel] makes of a header cell that is not
      text) are not covered: on such a label of the reference [re.sub]
      raises [TypeError] at line 74;
    - a frame carries the default [RangeIndex], so its index is determined by
      its row count and label alignment of a [Series] against it keeps the
      first rows and pads with [NaN];
    - column labels may repeat inside one frame, as pandas allows and as the
      counting code of [standardize_data] expects; the readers [pd.read_csv]
      and [pd.read_excel] themselves rename repeated headers ([B], [B.1],
      ...), which is what [remove_column_numbering] undoes on the way out.
      A frame that [standardize_data] gets from [read_file] therefore has
      pairwise distinct labels, and what is stated of the tables the program
      reads is stated under that hypothesis;
    - a raised exception is a value [Raise e]: [standardize_data] catches
      every exception, prints it and saves nothing. *)

From Stdlib Require Import String Ascii.
From Stdlib Require Import Numbers.DecimalString.
From Stdlib Require Import List Arith Bool Lia.
From Stdlib Require Import Permutation Sorted.
Import ListNotations.

Open Scope string_scope.
Open Scope list_scope.
Open Scope nat_scope.

(** ** Exceptions *)

Inductive exn : Type :=
| KeyError
| ValueError.

Inductive result (A : Type) : Type :=
| Ok (a : A)
| Raise (e : exn).

Arguments Ok {A} a.
Arguments Raise {A} e.

Definition bind {A B : Type} (m : result A) (k : A -> result B) : result B :=
  match m with
  | Ok a => k a
  | Raise e => Raise e
  end.

Notation "x <- m ;; k" := (bind m (fun x => k))
  (at level 61, m at next level, right associativity).

(** A [for] loop whose body may raise: the first exception leaves the loop. *)
Fixpoint for_each {A S : Type} (body : S -> A -> result S) (l : list A) (s : S)
  : result S :=
  match l with
  | [] => Ok s
  | a :: l' => s' <- body s a ;; for_each body l' s'
  end.

(** ** Column labels and the regular expression of [remove_column_numbering] *)

Module Re.

Definition LF : ascii := "010"%char.

(** [\d] on the code points below 256. *)
Definition is_digit (c : ascii) : bool :=
  (48 <=? nat_of_ascii c) && (nat_of_ascii c <=? 57).

(** Greedy [\d*]: what is left after the longest run of digits. *)
Fixpoint skip_digits (s : string) : string :=
  match s with
  | String c r => if is_digit c then skip_digits r else s
  | EmptyString => EmptyString
  end.

(** [$] without [re.MULTILINE]: the end of the string, or the position
    just before a newline that is the last character. *)
Definition at_end (s : string) : bool :=
  match s with
  | EmptyString => true
  | String c EmptyString => Ascii.eqb c LF
  | _ => false
  end.

(** The pattern [\.\d+$] tried at the first position of [s]; the result is
    the text after the match.  After the longest digit run either [$]
    holds, or the next character is not a digit and no shorter run can
    end at [$] either. *)
Definition match_here (s : string) : option string :=
  match s with
  | String dot (String d r) =>
      if Ascii.eqb dot "."%char && is_digit d then
        let rest := skip_digits r in
        if at_end rest then Some rest else None
      else None
  | _ => None
  end.

(** [re.sub(r'\.\d+$', '', s)]: the leftmost match is replaced by the empty
    string; what follows it is empty or one newline and holds no match. *)
Fixpoint sub (s : string) : string :=
  match match_here s with
  | Some rest => rest
  | None =>
      match s with
      | EmptyString => EmptyString
      | String c r => String c (sub r)
      end
  end.

(** [re.search(r'\.\d+$', s) is not None]. *)
Fixpoint search (s : string) : bool :=
  match match_here s with
  | Some _ => true
  | None =>
      match s with
      | EmptyString => false
      | String _ r => search r
      end
  end.

(** [re.fullmatch(r'\d*', s) is not None]. *)
Fixpoint all_digits (s : string) : bool :=
  match s with
  | EmptyString => true
  | String c r => is_digit c && all_digits r
  end.

End Re.

(** [str(n)] of a non-negative [int], as the f-string [f"{col}_{i+1}"]
    formats it. *)
Definition str_of_int (n : nat) : string :=
  NilEmpty.string_of_uint (Nat.to_uint n).

(** ** Cells, series and frames *)

Inductive cell : Type :=
| NaN
| Num (n : nat)
| Txt (s : string).

(** A [Series] over [RangeIndex(len)]. *)
Definition Series : Type := list cell.

Record DataFrame : Type := mkDataFrame {
  nrows : nat;                          (* len(df.index) *)
  cols : list (string * Series)         (* the columns, left to right *)
}.

(** [pd.DataFrame()] *)
Definition empty_frame : DataFrame := mkDataFrame 0 [].

(** [pd.Series(dtype='object')] *)
Definition empty_series : Series := [].

(** [df.columns.tolist()] *)
Definition columns_tolist (df : DataFrame) : list string := map fst (cols df).

(** Every column of the frame has one cell per row. *)
Definition well_formed (df : DataFrame) : Prop :=
  Forall (fun c => length (snd c) = nrows df) (cols df).

(** [s.reindex(RangeIndex(n))] for a series over a [RangeIndex]. *)
Definition reindex (s : Series) (n : nat) : Series :=
  firstn n s ++ repeat NaN (n - length s).

(** What [df[key]] evaluates to for a single label: a [Series] when the label
    occurs once among the columns, a [DataFrame] of all the columns that
    carry it when the label is repeated ([DataFrame.__getitem__]: "a Series,
    except when the key itself is repeated"). *)
Inductive item : Type :=
| ItemSeries (s : Series)
| ItemFrame (sub : list Series).

(** The columns of [df] that carry the label [key], left to right. *)
Definition instances (df : DataFrame) (key : string) : list (string * Series) :=
  filter (fun c => String.eqb (fst c) key) (cols df).

(** [DataFrame.__getitem__] with a single label. *)
Definition getitem (df : DataFrame) (key : string) : result item :=
  match instances df key with
  | [] => Raise KeyError
  | [c] => Ok (ItemSeries (snd c))
  | sub => Ok (ItemFrame (map snd sub))
  end.

(** [DataFrame._ensure_valid_index]: a frame without rows takes the index of
    the first non-empty value assigned to it; the columns it already has
    are reindexed, that is filled with [NaN]. *)
Definition ensure_valid_index (df : DataFrame) (len_value : nat) : DataFrame :=
  if (nrows df =? 0) && (0 <? len_value) then
    mkDataFrame len_value
      (map (fun c => (fst c, reindex (snd c) len_value)) (cols df))
  else df.

(** Storing one column under [key]: an existing label keeps its position and
    gets the new data, a new label is appended on the right. *)
Definition set_column (key : string) (data : Series)
  (l : list (string * Series)) : list (string * Series) :=
  if existsb (fun c => String.eqb (fst c) key) l then
    map (fun c => if String.eqb (fst c) key then (fst c, data) else c) l
  else l ++ [(key, data)].

(** [df[key] = s] for a [Series] [s]: the value is aligned on the frame's
    index, after the frame took the value's index if it had no rows. *)
Definition setitem_series (df : DataFrame) (key : string) (s : Series)
  : DataFrame :=
  let df' := ensure_valid_index df (length s) in
  mkDataFrame (nrows df') (set_column key (reindex s (nrows df')) (cols df')).

(** [df[key] = value] with a single label [key].  A frame value must have
    exactly one column for one label; otherwise pandas raises [ValueError]
    ([DataFrame._set_item_frame_value]: "Cannot set a DataFrame with
    multiple columns to the single column", or "Columns must be same length
    as key" when the label exists). *)
Definition setitem (df : DataFrame) (key : string) (value : item)
  : result DataFrame :=
  match value with
  | ItemSeries s => Ok (setitem_series df key s)
  | ItemFrame [s] => Ok (setitem_series df key s)
  | ItemFrame _ => Raise ValueError
  end.

(** ** Python dictionaries from labels to counts

    A [dict] iterates in insertion order; assigning to a key that is present
    keeps its position. *)

Definition dict : Type := list (string * nat).

Fixpoint dict_lookup (d : dict) (k : string) : option nat :=
  match d with
  | [] => None
  | (k', v) :: d' => if String.eqb k' k then Some v else dict_lookup d' k
  end.

(** [d.get(k, default)] *)
Definition dict_get (d : dict) (k : string) (default : nat) : nat :=
  match dict_lookup d k with
  | Some v => v
  | None => default
  end.

(** [k in d] *)
Definition dict_contains (d : dict) (k : string) : bool :=
  match dict_lookup d k with
  | Some _ => true
  | None => false
  end.

(** [d[k]] *)
Definition dict_item (d : dict) (k : string) : result nat :=
  match dict_lookup d k with
  | Some v => Ok v
  | None => Raise KeyError
  end.

(** [d[k] = v] *)
Fixpoint dict_set (d : dict) (k : string) (v : nat) : dict :=
  match d with
  | [] => [(k, v)]
  | (k', v') :: d' =>
      if String.eqb k' k then (k', v) :: d' else (k', v') :: dict_set d' k v
  end.

(** ** [remove_column_numbering] *)

(** The loop builds [column_mapping], a dictionary from each label to
    [re.sub(r'\.\d+$', '', col)], and then renames column by column through
    it; a label always maps to its own image, so the renaming is a map over
    the labels and the data stay in place. *)
Definition remove_column_numbering (df : DataFrame) : DataFrame :=
  mkDataFrame (nrows df) (map (fun c => (Re.sub (fst c), snd c)) (cols df)).

(** ** [standardize_data] *)

(** The counting loops of lines 98-100 and 107-109:
    [counts[col] = counts.get(col, 0) + 1]. *)
Definition column_counts (columns : list string) : dict :=
  fold_left (fun counts col => dict_set counts col (dict_get counts col 0 + 1))
    columns [].

(** One entry of [missing_instances]: [(col, required, actual)]. *)
Definition warning : Type := (string * nat * nat)%type.

(** Lines 112-115. *)
Definition missing_instances (base_column_counts new_column_counts : dict)
  : list warning :=
  flat_map
    (fun '(col, count) =>
       if negb (dict_contains new_column_counts col)
          || (dict_get new_column_counts col 0 <? count)
       then [(col, count, dict_get new_column_counts col 0)]
       else [])
    base_column_counts.

(** Lines 127-133: [processed_columns] is a set used for membership only. *)
Fixpoint unique_loop (base_columns unique_columns processed_columns : list string)
  : list string :=
  match base_columns with
  | [] => unique_columns
  | col :: rest =>
      if existsb (String.eqb col) processed_columns
      then unique_loop rest unique_columns processed_columns
      else unique_loop rest (unique_columns ++ [col]) (col :: processed_columns)
  end.

Definition unique_columns (base_columns : list string) : list string :=
  unique_loop base_columns [] [].

(** [f"{col}_{i+1}"] *)
Definition numbered (col : string) (i : nat) : string :=
  (col ++ "_" ++ str_of_int (i + 1))%string.

(** Lines 150-155, the body of [for i in range(required_count)]. *)
Definition add_instance (new_df : DataFrame) (col : string)
  (new_col_instances : list string) (standardized_df : DataFrame) (i : nat)
  : result DataFrame :=
  if i <? length new_col_instances then
    v <- getitem new_df (nth i new_col_instances "") ;;
    setitem standardized_df (numbered col i) v
  else
    setitem standardized_df (numbered col i) (ItemSeries empty_series).

(** Lines 137-155, the body of [for col in unique_columns]. *)
Definition process_column (base_column_counts : dict) (new_df : DataFrame)
  (standardized_df : DataFrame) (col : string) : result DataFrame :=
  let new_columns := columns_tolist new_df in
  let new_col_instances := filter (String.eqb col) new_columns in
  required_count <- dict_item base_column_counts col ;;
  if required_count =? 1 then
    match new_col_instances with
    | first :: _ =>
        v <- getitem new_df first ;;
        setitem standardized_df col v
    | [] => setitem standardized_df col (ItemSeries empty_series)
    end
  else
    for_each (add_instance new_df col new_col_instances)
      (seq 0 required_count) standardized_df.

(** Lines 124-158: the frame handed to [save_file], or the exception that the
    handler of line 176 reports. *)
Definition standardized (base_df new_df : DataFrame) : result DataFrame :=
  let base_columns := columns_tolist base_df in
  let base_column_counts := column_counts base_columns in
  standardized_df <-
    for_each (process_column base_column_counts new_df)
      (unique_columns base_columns) empty_frame ;;
  Ok (remove_column_numbering standardized_df).

(** The warnings printed at lines 117-121, which come before the frame is
    built, and the outcome of building it. *)
Definition standardize_data (base_df new_df : DataFrame)
  : list warning * result DataFrame :=
  let base_column_counts := column_counts (columns_tolist base_df) in
  let new_column_counts := column_counts (columns_tolist new_df) in
  (missing_instances base_column_counts new_column_counts,
   standardized base_df new_df).

(** ** Concrete tables *)

Definition frame (rows : nat) (l : list (string * Series)) : DataFrame :=
  mkDataFrame rows l.

(** The reference of Scenarios A and B, [A, B, B]; only its labels matter. *)
Definition base_ABB : DataFrame :=
  frame 1 [("A", [Txt "x"]); ("B", [Txt "y"]); ("B", [Txt "z"])].

(** The target of Scenario B: [A = [1, 2]], one [B = [9, 9]]. *)
Definition new_AB : DataFrame :=
  frame 2 [("A", [Num 1; Num 2]); ("B", [Num 9; Num 9])].

(** ** Notions used to state the properties *)

(** Position of the first occurrence of [x] in [l]. *)
Fixpoint index_of (x : string) (l : list string) : nat :=
  match l with
  | [] => 0
  | y :: l' => if String.eqb y x then 0 else S (index_of x l')
  end.

(** The labels of [l] that are not in [seen], each one once, at the place of
    its first occurrence. *)
Fixpoint first_from (seen l : list string) : list string :=
  match l with
  | [] => []
  | x :: l' =>
      if existsb (String.eqb x) seen then first_from seen l'
      else x :: first_from (x :: seen) l'
  end.

Definition first_occurrences (l : list string) : list string := first_from [] l.

(** The counting loop started from the dictionary [d]. *)
Definition counts_from (d : dict) (l : list string) : dict :=
  fold_left (fun counts col => dict_set counts col (dict_get counts col 0 + 1))
    l d.

(** Number of labels of [l] equal to [k]. *)
Definition count_label (k : string) (l : list string) : nat :=
  length (filter (fun y => String.eqb y k) l).

(** Number of columns of [df] whose label equals [name]. *)
Definition occurrences (df : DataFrame) (name : string) : nat :=
  length (instances df name).

(** The labels under which [process_column] stores the columns of [col]. *)
Definition transient_of (col : string) (required_count : nat) : list string :=
  if required_count =? 1 then [col]
  else map (numbered col) (seq 0 required_count).

(** All the labels assigned while [standardized_df] is built, in the order
    of the assignments. *)
Definition transient_names (base_columns : list string) : list string :=
  flat_map
    (fun col => transient_of col (dict_get (column_counts base_columns) col 0))
    (unique_columns base_columns).

(** The data that reach the output for a label carried by [inst] in the
    target: the column itself when there is one, the empty series when
    there is none. *)
Definition source_of (inst : list (string * Series)) : Series :=
  match inst with
  | [c] => snd c
  | _ => empty_series
  end.

(** The assignments [process_column] performs for [col] when the target has
    at most one column labelled [col]. *)
Definition plan_of (col : string) (required_count : nat)
  (inst : list (string * Series)) : list (string * Series) :=
  if required_count =? 1 then [(col, source_of inst)]
  else map (fun i => (numbered col i,
                      if i <? length inst then source_of inst else empty_series))
         (seq 0 required_count).

Definition plan (base_df new_df : DataFrame) : list (string * Series) :=
  flat_map
    (fun col => plan_of col
                  (dict_get (column_counts (columns_tolist base_df)) col 0)
                  (instances new_df col))
    (unique_columns (columns_tolist base_df)).

Definition run_plan (p : list (string * Series)) (df : DataFrame) : DataFrame :=
  fold_left (fun df a => setitem_series df (fst a) (snd a)) p df.

(** What [new_df[col]] evaluates to, from the columns that carry [col]. *)
Definition item_of (inst : list (string * Series)) : result item :=
  match inst with
  | [] => Raise KeyError
  | [c] => Ok (ItemSeries (snd c))
  | sub => Ok (ItemFrame (map snd sub))
  end.

(** [process_column] read through the columns [inst] of the target that carry
    [col]: every label of [new_col_instances] is [col] itself. *)
Definition process_via (base_column_counts : dict) (col : string)
  (inst : list (string * Series)) (standardized_df : DataFrame)
  : result DataFrame :=
  required_count <- dict_item base_column_counts col ;;
  if required_count =? 1 then
    match inst with
    | _ :: _ => v <- item_of inst ;; setitem standardized_df col v
    | [] => setitem standardized_df col (ItemSeries empty_series)
    end
  else
    for_each
      (fun df i =>
         if i <? length inst then
           v <- item_of inst ;; setitem df (numbered col i) v
         else setitem df (numbered col i) (ItemSeries empty_series))
      (seq 0 required_count) standardized_df.

(** The two kinds of series assigned to [standardized_df]: a column of the
    target, or [pd.Series(dtype='object')]. *)
Definition from_target (new_df : DataFrame) (s : Series) : Prop :=
  s = empty_series \/ In s (map snd (cols new_df)).

(** A column of the frame being built is either all [NaN] or the data of a
    column of the target, unchanged. *)
Definition padded_or_copied (new_df df : DataFrame) : Prop :=
  Forall (fun c => snd c = repeat NaN (nrows df)
                   \/ In (snd c) (map snd (cols new_df))) (cols df).

(** What holds of [standardized_df] all along the loop. *)
Definition build_invariant (new_df df : DataFrame) : Prop :=
  well_formed df
  /\ (nrows df = 0 \/ nrows df = nrows new_df)
  /\ padded_or_copied new_df df.

(** A reference [A] and a target that has no column [A]. *)
Definition base_A : DataFrame := frame 1 [("A", [Txt "x"])].

Definition new_B : DataFrame := frame 2 [("B", [Num 1; Num 2])].

(** Scenario D: the target has a column [Extra] that the reference lacks. *)
Definition new_A_Extra : DataFrame :=
  frame 2 [("A", [Num 1; Num 2]); ("Extra", [Num 7; Num 8])].

Definition new_A : DataFrame := frame 2 [("A", [Num 1; Num 2])].

(** A reference in which the label of one column is the numbered label of
    another: [A_1, A, A]. *)
Definition base_A1_A_A : DataFrame :=
  frame 1 [("A_1", [Txt "x"]); ("A", [Txt "y"]); ("A", [Txt "z"])].




(** A reference whose first name is missing from the target. *)
Definition base_CA : DataFrame := frame 1 [("C", [Txt "x"]); ("A", [Txt "y"])].

(** Scenario E: a target with columns and no row. *)
Definition new_AB_empty : DataFrame := frame 0 [("A", []); ("B", [])].

(** A reference name that, once stripped, is the name of a target column
    the reference does not have. *)
Definition base_Extra1 : DataFrame := frame 1 [("Extra.1", [Txt "x"])].

Definition new_Extra_Extra1 : DataFrame :=
  frame 2 [("Extra", [Num 7; Num 8]); ("Extra.1", [Num 1; Num 2])].

(** ** [remove_column_numbering], statement by statement *)

(** [column_mapping]: a dictionary from labels to labels. *)
Definition mapping : Type := list (string * string).

Fixpoint mapping_lookup (m : mapping) (k : string) : option string :=
  match m with
  | [] => None
  | (k', v) :: m' => if String.eqb k' k then Some v else mapping_lookup m' k
  end.

(** [column_mapping[col]] *)
Definition mapping_item (m : mapping) (k : string) : result string :=
  match mapping_lookup m k with
  | Some v => Ok v
  | None => Raise KeyError
  end.

(** [column_mapping[col] = new_col] *)
Fixpoint mapping_set (m : mapping) (k v : string) : mapping :=
  match m with
  | [] => [(k, v)]
  | (k', v') :: m' =>
      if String.eqb k' k then (k', v) :: m' else (k', v') :: mapping_set m' k v
  end.

(** Lines 71-75: the loop that fills [column_mapping], from the dictionary
    [m]. *)
Definition column_mapping_from (m : mapping) (columns : list string) : mapping :=
  fold_left (fun m col => mapping_set m col (Re.sub col)) columns m.

(** Line 78: the list comprehension [[column_mapping[col] for col in
    df.columns]]. *)
Fixpoint renamed (m : mapping) (columns : list string) : result (list string) :=
  match columns with
  | [] => Ok []
  | col :: rest =>
      new_col <- mapping_item m col ;;
      new_rest <- renamed m rest ;;
      Ok (new_col :: new_rest)
  end.

(** [df.columns = labels]: pandas raises [ValueError] when the number of
    labels is not the number of columns. *)
Definition set_columns (df : DataFrame) (labels : list string) : result DataFrame :=
  if length labels =? length (cols df) then
    Ok (mkDataFrame (nrows df) (combine labels (map snd (cols df))))
  else Raise ValueError.

(** Lines 70-79 as they are written. *)
Definition remove_column_numbering_loop (df : DataFrame) : result DataFrame :=
  let column_mapping := column_mapping_from [] (columns_tolist df) in
  labels <- renamed column_mapping (columns_tolist df) ;;
  set_columns df labels.

(** ** Tables whose names are pairwise distinct *)

(** The data of the first column of [df] labelled [name]. *)
Definition column_of (df : DataFrame) (name : string) : option Series :=
  match instances df name with
  | c :: _ => Some (snd c)
  | [] => None
  end.

(** The column of the target with that name, or a column of [NaN]. *)
Definition column_or_nan (new_df : DataFrame) (name : string) (rows : nat)
  : Series :=
  match column_of new_df name with
  | Some data => data
  | None => repeat NaN rows
  end.

(** Whether some name of the reference is the name of a target column. *)
Definition some_name_matched (base_df new_df : DataFrame) : bool :=
  existsb (fun name => existsb (String.eqb name) (columns_tolist new_df))
    (columns_tolist base_df).

(** The label a reader gives to the [i]-th repetition of a header. *)
Definition dot_numbered (name : string) (i : nat) : string :=
  (name ++ "." ++ str_of_int i)%string.

(** ** Paths and file formats *)

Definition DQUOTE : ascii := "034"%char.
Definition SQUOTE : ascii := "039"%char.
Definition BACKSLASH : ascii := "092"%char.

(** The characters that [normalize_path] strips: the double and the single
    quote. *)
Definition is_quote (c : ascii) : bool :=
  Ascii.eqb c DQUOTE || Ascii.eqb c SQUOTE.

Fixpoint all_quotes (s : string) : bool :=
  match s with
  | EmptyString => true
  | String c r => is_quote c && all_quotes r
  end.

(** [str.lstrip] and [str.rstrip] with the two quotes as character set. *)
Fixpoint lstrip_quotes (s : string) : string :=
  match s with
  | String c r => if is_quote c then lstrip_quotes r else s
  | EmptyString => EmptyString
  end.

Fixpoint rstrip_quotes (s : string) : string :=
  match s with
  | EmptyString => EmptyString
  | String c r =>
      match rstrip_quotes r with
      | EmptyString => if is_quote c then EmptyString else String c EmptyString
      | r' => String c r'
      end
  end.

(** [path.strip(chars)] of line 16. *)
Definition strip_quotes (path : string) : string :=
  rstrip_quotes (lstrip_quotes path).

(** Lines 16-18.  [resolve] stands for [str(Path(p).resolve())], which
    depends on the file system. *)
Definition normalize_path (resolve : string -> string) (path : string) : string :=
  resolve (strip_quotes path).

(** [str.lower] on the code points below 256: the letters [A]-[Z] and the
    accented capitals U+00C0-U+00DE, the multiplication sign excepted. *)
Definition lower_char (c : ascii) : ascii :=
  let n := nat_of_ascii c in
  if ((65 <=? n) && (n <=? 90))
     || ((192 <=? n) && (n <=? 222) && negb (n =? 215))
  then ascii_of_nat (n + 32) else c.

Fixpoint lower (s : string) : string :=
  match s with
  | EmptyString => EmptyString
  | String c r => String (lower_char c) (lower r)
  end.

(** The separators of [os.path]: the slash, and the backslash too on
    Windows ([nt = true]). *)
Definition is_sep (nt : bool) (c : ascii) : bool :=
  Ascii.eqb c "/" || (nt && Ascii.eqb c BACKSLASH).

Definition is_dot (c : ascii) : bool := Ascii.eqb c ".".

(** [s] cut at the last character that satisfies [f]: what stands before it
    and what stands after it. *)
Fixpoint rsplit (f : ascii -> bool) (s : string) : option (string * string) :=
  match s with
  | EmptyString => None
  | String c r =>
      match rsplit f r with
      | Some (before, after) => Some (String c before, after)
      | None => if f c then Some (EmptyString, r) else None
      end
  end.

(** [p[sepIndex + 1:]], the part of [p] after its last separator. *)
Definition basename (nt : bool) (p : string) : string :=
  match rsplit (is_sep nt) p with
  | Some (_, name) => name
  | None => p
  end.

Fixpoint all_dots (s : string) : bool :=
  match s with
  | EmptyString => true
  | String c r => is_dot c && all_dots r
  end.

(** [os.path.splitext(p)[1]]: the text from the last dot of the last
    component, provided a character other than a dot stands before it in
    that component; otherwise the empty string. *)
Definition splitext_ext (nt : bool) (p : string) : string :=
  match rsplit is_dot (basename nt p) with
  | Some (stem, ext) => if all_dots stem then EmptyString else String "." ext
  | None => EmptyString
  end.

Inductive format : Type :=
| Csv
| Xlsx.

(** Lines 30-36: the test [read_file] makes on the normalized path;
    [save_file] makes the same at lines 47-53. *)
Definition file_format (nt : bool) (file_path : string) : result format :=
  let file_extension := lower (splitext_ext nt file_path) in
  if String.eqb file_extension ".csv" then Ok Csv
  else if String.eqb file_extension ".xlsx" then Ok Xlsx
  else Raise ValueError.

(** [read_file]: [pd_read_csv] and [pd_read_excel] stand for the pandas
    readers, whose outcome, an exception included, is a value of [R]. *)
Definition read_file {R : Type} (nt : bool) (resolve : string -> string)
  (pd_read_csv pd_read_excel : string -> R) (file_path : string) : result R :=
  let file_path := normalize_path resolve file_path in
  fmt <- file_format nt file_path ;;
  match fmt with
  | Csv => Ok (pd_read_csv file_path)
  | Xlsx => Ok (pd_read_excel file_path)
  end.

(** [s.endswith(suffix)] *)
Fixpoint ends_with (s suffix : string) : bool :=
  String.eqb s suffix
  || match s with
     | EmptyString => false
     | String _ r => ends_with r suffix
     end.

(** Line 256, the test of the main loop on the normalized base path:
    [base_file.lower().endswith(('.csv', '.xlsx'))]. *)
Definition has_table_suffix (base_file : string) : bool :=
  ends_with (lower base_file) ".csv" || ends_with (lower base_file) ".xlsx".

(** ** Tables as [read_file] returns them

    [standardize_data] gets both frames from [read_file] (lines 94 and 103).
    [pd.read_csv] and [pd.read_excel] give every column a label of its own:
    a header that the file repeats is read as [B], [B.1], [B.2], ...  The
    frames below are named after the header row of the file. *)

(** Scenario A: the header row [A, B, B], for the reference and for the
    target [A = [1, 2]], [B = [3, 4]], [B = [5, 6]]. *)
Definition read_base_A_B_B : DataFrame :=
  frame 1 [("A", [Txt "x"]); ("B", [Txt "y"]); ("B.1", [Txt "z"])].

Definition read_new_A_B_B : DataFrame :=
  frame 2 [("A", [Num 1; Num 2]); ("B", [Num 3; Num 4]);
           ("B.1", [Num 5; Num 6])].






(** Scenario C with a second column: the reference [Header, Id], the target
    [Header.1, Id]. *)
Definition base_Header_Id : DataFrame :=
  frame 1 [("Header", [Txt "x"]); ("Id", [Txt "y"])].

Definition new_Header1_Id : DataFrame :=
  frame 2 [("Header.1", [Txt "a"; Txt "b"]); ("Id", [Num 1; Num 2])].

(** ** The set [processed_columns]

    [processed_columns] is a Python [set] of strings.  The order in which a
    set keeps its elements depends on their hashes, which change from one
    run of the interpreter to the next.  In the loop below [set_add] stands
    for [processed_columns.add] and may place the new element anywhere;
    [unique_loop] is the instance in which it is placed in front. *)
Fixpoint unique_loop_with (set_add : string -> list string -> list string)
  (base_columns unique_columns processed_columns : list string) : list string :=
  match base_columns with
  | [] => unique_columns
  | col :: rest =>
      if existsb (String.eqb col) processed_columns
      then unique_loop_with set_add rest unique_columns processed_columns
      else unique_loop_with set_add rest (unique_columns ++ [col])
             (set_add col processed_columns)
  end.

(** What [set.add] guarantees: afterwards the elements are the new one and
    the former ones. *)
Definition set_like (set_add : string -> list string -> list string) : Prop :=
  forall x y s, In x (set_add y s) <-> x = y \/ In x s.

(** Lines 96-158 with the set abstracted. *)
Definition standardize_data_with
  (set_add : string -> list string -> list string) (base_df new_df : DataFrame)
  : list warning * result DataFrame :=
  let base_columns := columns_tolist base_df in
  let base_column_counts := column_counts base_columns in
  let new_column_counts := column_counts (columns_tolist new_df) in
  (missing_instances base_column_counts new_column_counts,
   standardized_df <-
     for_each (process_column base_column_counts new_df)
       (unique_loop_with set_add base_columns [] []) empty_frame ;;
   Ok (remove_column_numbering standardized_df)).

(** * Properties of the regular expression *)

Module ReFacts.
Import Re.

Lemma skip_digits_length (s : string) :
  String.length (skip_digits s) <= String.length s.
Proof.
  induction s as [|c r IH]; simpl; [lia|].
  destruct (is_digit c); simpl; lia.
Qed.

Lemma match_here_length (s rest : string) :
  match_here s = Some rest -> String.length rest < String.length s.
Proof.
  destruct s as [|dot [|d r]]; simpl; try discriminate.
  destruct (Ascii.eqb dot "." && is_digit d); [|discriminate].
  destruct (at_end (skip_digits r)); [|discriminate].
  intros H; injection H as <-.
  pose proof (skip_digits_length r). lia.
Qed.

(** What follows a match holds no further match. *)
Lemma at_end_no_match (s : string) : at_end s = true -> match_here s = None.
Proof.
  destruct s as [|c [|d r]]; simpl; try reflexivity; discriminate.
Qed.

Lemma search_false_sub (s : string) : search s = false -> sub s = s.
Proof.
  induction s as [|c r IH]; [reflexivity|].
  cbn [search sub]. destruct (match_here (String c r)); [discriminate|].
  intros H. now rewrite IH.
Qed.

Lemma search_true_sub (s : string) :
  search s = true -> String.length (sub s) < String.length s.
Proof.
  induction s as [|c r IH]; [discriminate|].
  cbn [search sub].
  destruct (match_here (String c r)) eqn:E.
  - intros _. now apply match_here_length.
  - intros H. simpl. specialize (IH H). lia.
Qed.

Lemma search_sub_fixed (s : string) : search s = false <-> sub s = s.
Proof.
  split; [apply search_false_sub|].
  intros H. destruct (search s) eqn:E; [|reflexivity].
  apply search_true_sub in E. rewrite H in E. lia.
Qed.

Lemma is_digit_not_dot (c : ascii) :
  is_digit c = true -> Ascii.eqb c "." = false.
Proof.
  intros H. destruct (Ascii.eqb_spec c "."%char) as [->|]; [discriminate|reflexivity].
Qed.

Lemma all_digits_sub (s : string) : all_digits s = true -> sub s = s.
Proof.
  induction s as [|c r IH]; [reflexivity|].
  simpl all_digits. intros H. apply andb_prop in H as [Hc Hr].
  cbn [sub].
  assert (match_here (String c r) = None) as ->.
  { destruct r; simpl; [reflexivity|]. now rewrite (is_digit_not_dot c Hc). }
  now rewrite IH.
Qed.

(** After any text that still holds an underscore, [$] cannot hold. *)
Lemma skip_digits_underscore (x ds : string) :
  at_end (skip_digits (x ++ String "_" ds)) = false.
Proof.
  induction x as [|c x IH]; simpl.
  - destruct ds; reflexivity.
  - destruct (is_digit c); [exact IH|].
    destruct x; reflexivity.
Qed.

Lemma match_here_underscore (x ds : string) :
  match_here (x ++ String "_" ds) = None.
Proof.
  destruct x as [|c x]; simpl.
  - destruct ds; reflexivity.
  - destruct (x ++ String "_" ds)%string as [|d r] eqn:E; [reflexivity|].
    destruct (Ascii.eqb c "." && is_digit d) eqn:G; [|reflexivity].
    apply andb_prop in G as [_ G].
    pose proof (skip_digits_underscore x ds) as H.
    rewrite E in H. simpl in H. rewrite G in H. now rewrite H.
Qed.

Lemma sub_cons_none (c : ascii) (r : string) :
  match_here (String c r) = None -> sub (String c r) = String c (sub r).
Proof. intros H. cbn [sub]. now rewrite H. Qed.

(** A label that ends in an underscore and digits is left as it is. *)
Lemma sub_underscore (x ds : string) :
  all_digits ds = true ->
  sub (x ++ String "_" ds) = (x ++ String "_" ds)%string.
Proof.
  intros Hds. induction x as [|c x IH].
  - change ("" ++ String "_" ds)%string with (String "_" ds).
    rewrite sub_cons_none by apply (match_here_underscore "" ds).
    now rewrite all_digits_sub.
  - change (String c x ++ String "_" ds)%string
      with (String c (x ++ String "_" ds)).
    rewrite sub_cons_none by apply (match_here_underscore (String c x) ds).
    now rewrite IH.
Qed.

Lemma string_of_uint_digits (d : Decimal.uint) :
  all_digits (NilEmpty.string_of_uint d) = true.
Proof. induction d; simpl; auto. Qed.

Lemma sub_numbered (col : string) (i : nat) :
  sub (numbered col i) = numbered col i.
Proof.
  unfold numbered. apply sub_underscore. apply string_of_uint_digits.
Qed.

(** One trailing group [.digits] is removed, whatever stands before it. *)
Lemma skip_all_digits (ds : string) :
  all_digits ds = true -> skip_digits ds = EmptyString.
Proof.
  induction ds as [|c r IH]; [reflexivity|].
  simpl. intros H. apply andb_prop in H as [-> Hr]. auto.
Qed.

Lemma match_here_group (d : ascii) (ds : string) :
  is_digit d = true -> all_digits ds = true ->
  match_here (String "." (String d ds)) = Some EmptyString.
Proof.
  intros Hd Hds. simpl. rewrite Hd, (skip_all_digits ds Hds). reflexivity.
Qed.

Lemma skip_digits_group (x : string) (d : ascii) (ds : string) :
  at_end (skip_digits (x ++ String "." (String d ds))) = false.
Proof.
  induction x as [|c x IH]; simpl.
  - reflexivity.
  - destruct (is_digit c); [exact IH|].
    destruct x; reflexivity.
Qed.

Lemma match_here_before_group (c : ascii) (x : string) (d : ascii) (ds : string) :
  match_here (String c (x ++ String "." (String d ds))) = None.
Proof.
  simpl. destruct (x ++ String "." (String d ds))%string as [|e r] eqn:E;
    [reflexivity|].
  destruct (Ascii.eqb c "." && is_digit e) eqn:G; [|reflexivity].
  apply andb_prop in G as [_ G].
  pose proof (skip_digits_group x d ds) as H.
  rewrite E in H. simpl in H. rewrite G in H. now rewrite H.
Qed.

(** One application removes the last group of a dot and digits, and only
    that group. *)
Lemma sub_group (t : string) (d : ascii) (ds : string) :
  is_digit d = true -> all_digits ds = true ->
  sub (t ++ String "." (String d ds)) = t.
Proof.
  intros Hd Hds. induction t as [|c t IH].
  - change ("" ++ String "." (String d ds))%string
      with (String "." (String d ds)).
    cbn [sub]. now rewrite match_here_group.
  - change (String c t ++ String "." (String d ds))%string
      with (String c (t ++ String "." (String d ds))).
    rewrite sub_cons_none by apply match_here_before_group.
    now rewrite IH.
Qed.

End ReFacts.

(** * Properties of the census *)

Module CensusFacts.

Lemma mem_In (x : string) (l : list string) :
  existsb (String.eqb x) l = true <-> In x l.
Proof.
  rewrite existsb_exists. split.
  - intros (y & Hy & E). apply String.eqb_eq in E. now subst.
  - intros H. exists x. split; [assumption|apply String.eqb_refl].
Qed.

Lemma mem_false (x : string) (l : list string) :
  existsb (String.eqb x) l = false <-> ~ In x l.
Proof.
  rewrite <- mem_In. destruct (existsb (String.eqb x) l); intuition congruence.
Qed.

(** *** Dictionaries *)

Lemma dict_lookup_set (d : dict) (k : string) (v : nat) (k' : string) :
  dict_lookup (dict_set d k v) k'
  = if String.eqb k k' then Some v else dict_lookup d k'.
Proof.
  induction d as [|[k0 v0] d IH]; simpl; [reflexivity|].
  destruct (String.eqb_spec k0 k) as [->|Hk]; simpl.
  - destruct (String.eqb k k'); reflexivity.
  - rewrite IH. destruct (String.eqb_spec k0 k') as [->|]; [|reflexivity].
    destruct (String.eqb_spec k k'); congruence.
Qed.

Lemma dict_contains_keys (d : dict) (k : string) :
  dict_contains d k = existsb (String.eqb k) (map fst d).
Proof.
  unfold dict_contains.
  induction d as [|[k0 v0] d IH]; simpl; [reflexivity|].
  rewrite (String.eqb_sym k k0).
  destruct (String.eqb k0 k); simpl; [reflexivity|exact IH].
Qed.

Lemma dict_set_keys (d : dict) (k : string) (v : nat) :
  map fst (dict_set d k v)
  = if dict_contains d k then map fst d else map fst d ++ [k].
Proof.
  unfold dict_contains.
  induction d as [|[k0 v0] d IH]; simpl; [reflexivity|].
  destruct (String.eqb k0 k); simpl; [reflexivity|].
  rewrite IH. destruct (dict_lookup d k); reflexivity.
Qed.

Lemma dict_set_sum (d : dict) (k : string) :
  list_sum (map snd (dict_set d k (dict_get d k 0 + 1)))
  = list_sum (map snd d) + 1.
Proof.
  unfold dict_get.
  induction d as [|[k0 v0] d IH]; simpl; [reflexivity|].
  destruct (String.eqb k0 k); simpl; lia.
Qed.

(** *** The counting loop, from any intermediate dictionary *)

Lemma counts_from_get (l : list string) (d : dict) (k : string) :
  dict_get (counts_from d l) k 0 = dict_get d k 0 + count_label k l.
Proof.
  revert d. induction l as [|x l IH]; intros d.
  - unfold count_label. simpl. lia.
  - unfold counts_from, count_label in *. simpl fold_left. rewrite IH.
    unfold dict_get at 1. rewrite dict_lookup_set. simpl filter.
    destruct (String.eqb x k) eqn:E.
    + apply String.eqb_eq in E. subst. simpl. unfold dict_get. lia.
    + fold (dict_get d k 0). lia.
Qed.

Lemma counts_from_contains (l : list string) (d : dict) (k : string) :
  dict_contains (counts_from d l) k = dict_contains d k || existsb (String.eqb k) l.
Proof.
  revert d. induction l as [|x l IH]; intros d.
  - simpl. now rewrite orb_false_r.
  - unfold counts_from in *. simpl fold_left. rewrite IH.
    unfold dict_contains at 1. rewrite dict_lookup_set. simpl existsb.
    rewrite (String.eqb_sym k x).
    destruct (String.eqb x k); simpl.
    + now rewrite orb_true_r.
    + reflexivity.
Qed.

Lemma counts_from_sum (l : list string) (d : dict) :
  list_sum (map snd (counts_from d l)) = list_sum (map snd d) + length l.
Proof.
  revert d. induction l as [|x l IH]; intros d; simpl; [lia|].
  unfold counts_from in *. rewrite IH, dict_set_sum. lia.
Qed.

(** *** First occurrences *)

Lemma first_from_ext (l s1 s2 : list string) :
  (forall x, In x s1 <-> In x s2) -> first_from s1 l = first_from s2 l.
Proof.
  revert s1 s2. induction l as [|x l IH]; intros s1 s2 H; simpl; [reflexivity|].
  assert (existsb (String.eqb x) s1 = existsb (String.eqb x) s2) as ->.
  { destruct (existsb (String.eqb x) s2) eqn:E.
    - apply mem_In. apply H. now apply mem_In.
    - apply mem_false. rewrite H. now apply mem_false. }
  destruct (existsb (String.eqb x) s2); [now apply IH|].
  f_equal. apply IH. intros y. simpl. now rewrite H.
Qed.

Lemma first_from_In (l seen : list string) (x : string) :
  In x (first_from seen l) <-> In x l /\ ~ In x seen.
Proof.
  revert seen. induction l as [|y l IH]; intros seen; simpl; [tauto|].
  destruct (existsb (String.eqb y) seen) eqn:E.
  - apply mem_In in E. rewrite IH. split; [tauto|].
    intros [[->|H] Hn]; tauto.
  - apply mem_false in E. simpl. rewrite IH. simpl. split.
    + intros [->|(H1 & H2)]; tauto.
    + intros [[->|H] Hn]; [tauto|].
      destruct (string_dec y x); [tauto|right; tauto].
Qed.

Lemma first_from_NoDup (l seen : list string) : NoDup (first_from seen l).
Proof.
  revert seen. induction l as [|y l IH]; intros seen; simpl; [constructor|].
  destruct (existsb (String.eqb y) seen); [apply IH|].
  constructor; [|apply IH].
  rewrite first_from_In. simpl. tauto.
Qed.

Lemma map_S_sorted (m : list nat) :
  StronglySorted lt m -> StronglySorted lt (map S m).
Proof.
  induction 1 as [|a m Hs IH Hf]; simpl; constructor; [assumption|].
  apply Forall_map. revert Hf. apply Forall_impl. intros; lia.
Qed.

Lemma index_of_shift (y : string) (l r : list string) :
  (forall x, In x r -> x <> y) ->
  map (fun x => index_of x (y :: l)) r = map S (map (fun x => index_of x l) r).
Proof.
  intros H. rewrite map_map. apply map_ext_in. intros x Hx. simpl.
  destruct (String.eqb_spec y x) as [->|]; [|reflexivity].
  now elim (H x Hx).
Qed.

(** The labels come in the order of their first positions in [l]. *)
Lemma first_from_sorted (l seen : list string) :
  StronglySorted lt (map (fun x => index_of x l) (first_from seen l)).
Proof.
  revert seen. induction l as [|y l IH]; intros seen; [constructor|].
  cbn [first_from].
  destruct (existsb (String.eqb y) seen) eqn:E.
  - apply mem_In in E. rewrite index_of_shift.
    + apply map_S_sorted, IH.
    + intros x Hx ->. apply first_from_In in Hx. tauto.
  - cbn [map]. rewrite index_of_shift.
    + simpl. rewrite String.eqb_refl. constructor.
      * apply map_S_sorted, IH.
      * apply Forall_map. apply Forall_forall. intros; lia.
    + intros x Hx ->. apply first_from_In in Hx. simpl in Hx. tauto.
Qed.

Lemma unique_loop_spec (l u p : list string) :
  unique_loop l u p = u ++ first_from p l.
Proof.
  revert u p. induction l as [|x l IH]; intros u p; simpl.
  - now rewrite app_nil_r.
  - destruct (existsb (String.eqb x) p); [apply IH|].
    rewrite IH, <- app_assoc. reflexivity.
Qed.

Lemma unique_columns_spec (l : list string) :
  unique_columns l = first_occurrences l.
Proof. apply unique_loop_spec. Qed.

Lemma counts_from_keys (l : list string) (d : dict) :
  map fst (counts_from d l) = map fst d ++ first_from (map fst d) l.
Proof.
  revert d. induction l as [|x l IH]; intros d; simpl.
  - now rewrite app_nil_r.
  - unfold counts_from in *. simpl fold_left. rewrite IH, dict_set_keys.
    rewrite dict_contains_keys.
    destruct (existsb (String.eqb x) (map fst d)) eqn:E; [reflexivity|].
    rewrite <- app_assoc. simpl. do 2 f_equal.
    apply first_from_ext. intros y. rewrite in_app_iff. simpl. tauto.
Qed.

Lemma column_counts_keys (l : list string) :
  map fst (column_counts l) = unique_columns l.
Proof.
  rewrite unique_columns_spec. apply (counts_from_keys l []).
Qed.

Lemma column_counts_get (l : list string) (k : string) :
  dict_get (column_counts l) k 0 = count_label k l.
Proof. apply (counts_from_get l [] k). Qed.

Lemma column_counts_contains (l : list string) (k : string) :
  dict_contains (column_counts l) k = true <-> In k l.
Proof.
  unfold column_counts. fold (counts_from [] l).
  rewrite counts_from_contains. simpl. apply mem_In.
Qed.

Lemma count_label_columns (df : DataFrame) (k : string) :
  count_label k (columns_tolist df) = occurrences df k.
Proof.
  unfold count_label, occurrences, instances, columns_tolist.
  induction (cols df) as [|c l IH]; simpl; [reflexivity|].
  destruct (String.eqb (fst c) k); simpl; now rewrite IH.
Qed.

Lemma count_label_pos (k : string) (l : list string) :
  In k l -> 1 <= count_label k l.
Proof.
  unfold count_label. induction l as [|x l IH]; simpl; [tauto|].
  intros [->|H].
  - rewrite String.eqb_refl. simpl. lia.
  - destruct (String.eqb x k); simpl; [lia|auto].
Qed.

Lemma unique_columns_In (l : list string) (x : string) :
  In x (unique_columns l) <-> In x l.
Proof.
  rewrite unique_columns_spec. unfold first_occurrences.
  rewrite first_from_In. simpl. tauto.
Qed.

End CensusFacts.

(** * Properties of the loop that builds [standardized_df] *)

Module BuildFacts.
Import CensusFacts.

Lemma for_each_ext {A S : Type} (f g : S -> A -> result S) (l : list A) :
  (forall s a, In a l -> f s a = g s a) ->
  forall s, for_each f l s = for_each g l s.
Proof.
  induction l as [|a l IH]; intros H s; simpl; [reflexivity|].
  rewrite (H s a) by now left.
  destruct (g s a); simpl; [|reflexivity].
  apply IH. intros; apply H; now right.
Qed.

Lemma for_each_app {A S : Type} (f : S -> A -> result S) (l1 l2 : list A) (s : S) :
  for_each f (l1 ++ l2) s = s' <- for_each f l1 s ;; for_each f l2 s'.
Proof.
  revert s. induction l1 as [|a l1 IH]; intros s; simpl; [reflexivity|].
  destruct (f s a); simpl; [apply IH|reflexivity].
Qed.

Lemma instances_label (df : DataFrame) (key : string) (c : string * Series) :
  In c (instances df key) -> fst c = key.
Proof.
  unfold instances. rewrite filter_In. intros [_ H]. now apply String.eqb_eq.
Qed.

Lemma filter_labels (df : DataFrame) (col : string) :
  filter (String.eqb col) (columns_tolist df) = map fst (instances df col).
Proof.
  unfold instances, columns_tolist.
  induction (cols df) as [|c l IH]; simpl; [reflexivity|].
  rewrite (String.eqb_sym col (fst c)).
  destruct (String.eqb (fst c) col); simpl; now rewrite IH.
Qed.

Lemma getitem_via (df : DataFrame) (key : string) :
  getitem df key = item_of (instances df key).
Proof.
  unfold getitem, item_of.
  destruct (instances df key) as [|c [|c' l]]; reflexivity.
Qed.

(** Every label of [new_col_instances] is [col]. *)
Lemma nth_label (df : DataFrame) (col : string) (i : nat) :
  i < length (instances df col) ->
  nth i (map fst (instances df col)) "" = col.
Proof.
  intros H. change ""%string with (fst (""%string, ([] : Series))).
  rewrite map_nth. apply (instances_label df col). now apply nth_In.
Qed.

Lemma process_column_via (counts : dict) (new_df std : DataFrame) (col : string) :
  process_column counts new_df std col
  = process_via counts col (instances new_df col) std.
Proof.
  unfold process_column, process_via. rewrite filter_labels.
  destruct (dict_item counts col) as [r|e]; simpl; [|reflexivity].
  destruct (r =? 1).
  - destruct (instances new_df col) as [|c l] eqn:E; simpl; [reflexivity|].
    rewrite getitem_via.
    assert (fst c = col) as ->
      by (apply (instances_label new_df col); rewrite E; now left).
    now rewrite E.
  - apply for_each_ext. intros s i _. unfold add_instance.
    rewrite length_map.
    destruct (i <? length (instances new_df col)) eqn:L; [|reflexivity].
    apply Nat.ltb_lt in L. rewrite nth_label by assumption.
    now rewrite getitem_via.
Qed.

(** *** A target with at most one column per reference label *)

Lemma run_plan_app (p q : list (string * Series)) (df : DataFrame) :
  run_plan (p ++ q) df = run_plan q (run_plan p df).
Proof. apply fold_left_app. Qed.

Lemma instances_loop_ok (col : string) (inst : list (string * Series))
  (l : list nat) (df : DataFrame) :
  length inst <= 1 ->
  for_each
    (fun df i =>
       if i <? length inst then
         v <- item_of inst ;; setitem df (numbered col i) v
       else setitem df (numbered col i) (ItemSeries empty_series))
    l df
  = Ok (run_plan
          (map (fun i => (numbered col i,
                          if i <? length inst then source_of inst
                          else empty_series)) l) df).
Proof.
  intros Hlen. revert df. induction l as [|i l IH]; intros df; [reflexivity|].
  cbn [for_each map run_plan fold_left fst snd].
  destruct (i <? length inst) eqn:L.
  - destruct inst as [|c [|c' inst]]; simpl in Hlen, L; try discriminate;
      [|lia].
    simpl. apply IH.
  - simpl. apply IH.
Qed.

Lemma process_via_ok (counts : dict) (col : string)
  (inst : list (string * Series)) (std : DataFrame) (r : nat) :
  dict_item counts col = Ok r -> length inst <= 1 ->
  process_via counts col inst std = Ok (run_plan (plan_of col r inst) std).
Proof.
  intros Hr Hlen. unfold process_via, plan_of. rewrite Hr. simpl.
  destruct (r =? 1).
  - destruct inst as [|c [|c' inst]]; simpl in Hlen; [reflexivity|reflexivity|lia].
  - now apply instances_loop_ok.
Qed.

Lemma process_via_raise (counts : dict) (col : string)
  (inst : list (string * Series)) (std : DataFrame) (r : nat) :
  dict_item counts col = Ok r -> 1 <= r -> 2 <= length inst ->
  process_via counts col inst std = Raise ValueError.
Proof.
  intros Hr Hpos Hlen. unfold process_via. rewrite Hr. simpl.
  destruct inst as [|c [|c' inst]]; simpl in Hlen; try lia.
  destruct (r =? 1); [reflexivity|].
  destruct r as [|r]; [lia|]. reflexivity.
Qed.

Lemma dict_item_counts (l : list string) (col : string) :
  In col l ->
  dict_item (column_counts l) col = Ok (dict_get (column_counts l) col 0)
  /\ 1 <= dict_get (column_counts l) col 0.
Proof.
  intros H. split.
  - apply column_counts_contains in H.
    unfold dict_contains, dict_item, dict_get in *.
    destruct (dict_lookup (column_counts l) col); [reflexivity|discriminate].
  - rewrite column_counts_get. now apply count_label_pos.
Qed.

Lemma build_ok (base_columns : list string) (new_df : DataFrame)
  (us : list string) (std : DataFrame) :
  (forall col, In col us ->
     In col base_columns /\ occurrences new_df col <= 1) ->
  for_each (process_column (column_counts base_columns) new_df) us std
  = Ok (run_plan
          (flat_map
             (fun col => plan_of col
                           (dict_get (column_counts base_columns) col 0)
                           (instances new_df col)) us) std).
Proof.
  revert std. induction us as [|col us IH]; intros std H; [reflexivity|].
  destruct (H col (or_introl eq_refl)) as [Hin Hocc].
  destruct (dict_item_counts base_columns col Hin) as [Hitem _].
  cbn [for_each flat_map]. rewrite process_column_via.
  rewrite (process_via_ok _ _ _ _ _ Hitem Hocc). simpl.
  rewrite run_plan_app. apply IH. intros; apply H; now right.
Qed.

Lemma build_raise (base_columns : list string) (new_df : DataFrame)
  (us : list string) (std : DataFrame) :
  (forall col, In col us -> In col base_columns) ->
  (exists col, In col us /\ 2 <= occurrences new_df col) ->
  for_each (process_column (column_counts base_columns) new_df) us std
  = Raise ValueError.
Proof.
  revert std. induction us as [|col us IH]; intros std Hin (bad & Hbad & Hocc).
  - destruct Hbad.
  - destruct (dict_item_counts base_columns col (Hin col (or_introl eq_refl)))
      as [Hitem Hpos].
    cbn [for_each]. rewrite process_column_via.
    destruct (le_lt_dec (occurrences new_df col) 1) as [Hle|Hgt].
    + rewrite (process_via_ok _ _ _ _ _ Hitem Hle). simpl.
      apply IH; [intros; apply Hin; now right|].
      exists bad. split; [|assumption].
      destruct Hbad as [->|]; [lia|assumption].
    + now rewrite (process_via_raise _ _ _ _ _ Hitem Hpos Hgt).
Qed.

(** The frame is built exactly when no reference label is carried by two
    or more columns of the target; otherwise pandas raises in the first
    assignment of such a label. *)
Lemma standardized_ok (base_df new_df : DataFrame) :
  (forall col, In col (columns_tolist base_df) -> occurrences new_df col <= 1) ->
  standardized base_df new_df
  = Ok (remove_column_numbering (run_plan (plan base_df new_df) empty_frame)).
Proof.
  intros H. unfold standardized. rewrite build_ok; [reflexivity|].
  intros col Hc. rewrite unique_columns_In in Hc. split; [assumption|now apply H].
Qed.

Lemma standardized_raise (base_df new_df : DataFrame) :
  (exists col, In col (columns_tolist base_df) /\ 2 <= occurrences new_df col) ->
  standardized base_df new_df = Raise ValueError.
Proof.
  intros (col & Hc & Hocc). unfold standardized. rewrite build_raise; [reflexivity| |].
  - intros c Hc'. now rewrite unique_columns_In in Hc'.
  - exists col. split; [now rewrite unique_columns_In|assumption].
Qed.

Lemma standardized_Ok_inv (base_df new_df out : DataFrame) :
  standardized base_df new_df = Ok out ->
  (forall col, In col (columns_tolist base_df) -> occurrences new_df col <= 1)
  /\ out = remove_column_numbering (run_plan (plan base_df new_df) empty_frame).
Proof.
  intros H.
  assert (forall col, In col (columns_tolist base_df) ->
                      occurrences new_df col <= 1) as Hall.
  { intros col Hc. destruct (le_lt_dec (occurrences new_df col) 1); [assumption|].
    rewrite standardized_raise in H; [discriminate|].
    exists col. split; assumption. }
  split; [assumption|].
  rewrite (standardized_ok _ _ Hall) in H. now injection H.
Qed.

End BuildFacts.

(** * Properties of the assignments to [standardized_df] *)

Module PlanFacts.
Import CensusFacts BuildFacts.

(** *** Labels *)

Lemma ensure_valid_index_labels (df : DataFrame) (n : nat) :
  columns_tolist (ensure_valid_index df n) = columns_tolist df.
Proof.
  unfold ensure_valid_index, columns_tolist.
  destruct ((nrows df =? 0) && (0 <? n)); [|reflexivity].
  simpl. rewrite map_map. now apply map_ext.
Qed.

Lemma set_column_labels (key : string) (data : Series) (l : list (string * Series)) :
  map fst (set_column key data l)
  = if existsb (String.eqb key) (map fst l) then map fst l
    else map fst l ++ [key].
Proof.
  unfold set_column.
  assert (existsb (fun c => String.eqb (fst c) key) l
          = existsb (String.eqb key) (map fst l)) as ->.
  { induction l as [|c l IH]; simpl; [reflexivity|].
    now rewrite IH, (String.eqb_sym key (fst c)). }
  destruct (existsb (String.eqb key) (map fst l)).
  - rewrite map_map. apply map_ext. intros c.
    destruct (String.eqb (fst c) key); reflexivity.
  - now rewrite map_app.
Qed.

Lemma setitem_series_labels (df : DataFrame) (key : string) (s : Series) :
  columns_tolist (setitem_series df key s)
  = if existsb (String.eqb key) (columns_tolist df) then columns_tolist df
    else columns_tolist df ++ [key].
Proof.
  unfold setitem_series. unfold columns_tolist at 1. cbn [cols].
  rewrite set_column_labels.
  fold (columns_tolist (ensure_valid_index df (length s))).
  now rewrite ensure_valid_index_labels.
Qed.

Lemma run_plan_labels (p : list (string * Series)) (df : DataFrame) :
  columns_tolist (run_plan p df)
  = columns_tolist df ++ first_from (columns_tolist df) (map fst p).
Proof.
  revert df. induction p as [|[k s] p IH]; intros df.
  - simpl. now rewrite app_nil_r.
  - cbn [run_plan fold_left map fst snd first_from].
    fold (run_plan p (setitem_series df k s)).
    rewrite IH, setitem_series_labels.
    destruct (existsb (String.eqb k) (columns_tolist df)); [reflexivity|].
    rewrite <- app_assoc. simpl. do 2 f_equal.
    apply first_from_ext. intros y. rewrite in_app_iff. simpl. tauto.
Qed.

Lemma plan_of_labels (col : string) (r : nat) (inst : list (string * Series)) :
  map fst (plan_of col r inst) = transient_of col r.
Proof.
  unfold plan_of, transient_of. destruct (r =? 1); [reflexivity|].
  rewrite map_map. reflexivity.
Qed.

Lemma plan_labels (base_df new_df : DataFrame) :
  map fst (plan base_df new_df) = transient_names (columns_tolist base_df).
Proof.
  unfold plan, transient_names.
  induction (unique_columns (columns_tolist base_df)) as [|col l IH];
    [reflexivity|].
  simpl. now rewrite map_app, plan_of_labels, IH.
Qed.

Lemma remove_column_numbering_labels (df : DataFrame) :
  columns_tolist (remove_column_numbering df) = map Re.sub (columns_tolist df).
Proof.
  unfold remove_column_numbering, columns_tolist. simpl.
  now rewrite !map_map.
Qed.

(** The labels of the frame that is saved. *)
Lemma standardized_labels (base_df new_df out : DataFrame) :
  standardized base_df new_df = Ok out ->
  columns_tolist out
  = map Re.sub (first_occurrences (transient_names (columns_tolist base_df))).
Proof.
  intros H. apply standardized_Ok_inv in H as [_ ->].
  rewrite remove_column_numbering_labels, run_plan_labels, plan_labels.
  reflexivity.
Qed.

(** *** Rows *)

Lemma reindex_nil (n : nat) : reindex [] n = repeat NaN n.
Proof. unfold reindex. rewrite firstn_nil, Nat.sub_0_r. reflexivity. Qed.

Lemma reindex_full (s : Series) : reindex s (length s) = s.
Proof.
  unfold reindex. rewrite firstn_all, Nat.sub_diag. apply app_nil_r.
Qed.

Lemma reindex_length (s : Series) (n : nat) : length (reindex s n) = n.
Proof.
  unfold reindex. rewrite length_app, length_firstn, repeat_length. lia.
Qed.

Lemma setitem_series_rows (df : DataFrame) (key : string) (s : Series) :
  nrows (setitem_series df key s)
  = if nrows df =? 0 then length s else nrows df.
Proof.
  unfold setitem_series, ensure_valid_index.
  destruct (nrows df =? 0) eqn:E; simpl; [|reflexivity].
  destruct (0 <? length s) eqn:L; simpl.
  - reflexivity.
  - apply Nat.eqb_eq in E. apply Nat.ltb_ge in L. lia.
Qed.

Lemma set_column_Forall (P : string * Series -> Prop) (key : string)
  (data : Series) (l : list (string * Series)) :
  (forall k, P (k, data)) -> Forall P l -> Forall P (set_column key data l).
Proof.
  intros Hd Hl. unfold set_column.
  destruct (existsb (fun c => String.eqb (fst c) key) l).
  - apply Forall_map. revert Hl. apply Forall_impl. intros c Hc.
    destruct (String.eqb (fst c) key); [apply Hd|assumption].
  - apply Forall_app. split; [assumption|]. constructor; [apply Hd|constructor].
Qed.

Section AgainstTarget.

Variable new_df : DataFrame.
Hypothesis new_df_wf : well_formed new_df.

Lemma target_length (s : Series) :
  In s (map snd (cols new_df)) -> length s = nrows new_df.
Proof.
  intros H. apply in_map_iff in H as (c & <- & Hc).
  unfold well_formed in new_df_wf. rewrite Forall_forall in new_df_wf. auto.
Qed.

Lemma from_target_length (s : Series) :
  from_target new_df s -> length s = 0 \/ length s = nrows new_df.
Proof.
  intros [->|H]; [now left|right; now apply target_length].
Qed.

Lemma empty_frame_invariant : build_invariant new_df empty_frame.
Proof. split; [constructor|split; [now left|constructor]]. Qed.

(** One assignment keeps the invariant. *)
Lemma setitem_series_invariant (df : DataFrame) (key : string) (s : Series) :
  build_invariant new_df df -> from_target new_df s ->
  build_invariant new_df (setitem_series df key s).
Proof.
  intros (Hwf & Hrows & Hpc) Hs.
  unfold build_invariant, well_formed, padded_or_copied in *.
  pose proof (from_target_length s Hs) as Hlen.
  unfold setitem_series, ensure_valid_index.
  destruct ((nrows df =? 0) && (0 <? length s)) eqn:E; cbn [nrows cols].
  - apply andb_prop in E as [E0 E1].
    apply Nat.eqb_eq in E0. apply Nat.ltb_lt in E1.
    assert (length s = nrows new_df) as Hn by lia.
    rewrite reindex_full.
    assert (Forall (fun c : string * Series => snd c = repeat NaN (length s))
              (map (fun c => (fst c, reindex (snd c) (length s))) (cols df)))
      as Hold.
    { apply Forall_map. rewrite Forall_forall in Hwf.
      apply Forall_forall. intros [k d] Hc.
      specialize (Hwf (k, d) Hc). cbn [snd] in *. rewrite E0 in Hwf.
      apply length_zero_iff_nil in Hwf. subst d. apply reindex_nil. }
    split; [|split; [now right|]].
    + apply set_column_Forall; [intros; reflexivity|].
      revert Hold. apply Forall_impl. intros [k d] Hd. cbn [snd] in *.
      subst d. apply repeat_length.
    + apply set_column_Forall.
      * intros k. right. cbn [snd]. destruct Hs as [->|Hs]; [|assumption].
        simpl in E1. lia.
      * revert Hold. apply Forall_impl. intros c Hc. now left.
  - split; [|split; [assumption|]].
    + apply set_column_Forall; [|assumption].
      intros k. apply reindex_length.
    + apply set_column_Forall; [|assumption].
      intros k. cbn [snd]. destruct Hs as [->|Hs].
      * left. apply reindex_nil.
      * right. pose proof (target_length s Hs) as Hn.
        assert (nrows df = length s) as ->; [|now rewrite reindex_full].
        apply andb_false_iff in E as [E|E].
        -- apply Nat.eqb_neq in E. lia.
        -- apply Nat.ltb_ge in E. lia.
Qed.

Lemma run_plan_invariant (p : list (string * Series)) (df : DataFrame) :
  build_invariant new_df df ->
  Forall (fun a => from_target new_df (snd a)) p ->
  build_invariant new_df (run_plan p df).
Proof.
  revert df. induction p as [|a p IH]; intros df Hdf Hp; [assumption|].
  inversion Hp; subst. apply IH; [|assumption].
  now apply setitem_series_invariant.
Qed.

(** Once the frame has the rows of the target it keeps them. *)
Lemma run_plan_rows_keep (p : list (string * Series)) (df : DataFrame) :
  nrows df = nrows new_df ->
  Forall (fun a => from_target new_df (snd a)) p ->
  nrows (run_plan p df) = nrows new_df.
Proof.
  revert df. induction p as [|a p IH]; intros df Hdf Hp; [assumption|].
  inversion Hp as [|? ? Ha Hp']; subst. apply IH; [|assumption].
  rewrite setitem_series_rows.
  destruct (nrows df =? 0) eqn:E; [|assumption].
  apply Nat.eqb_eq in E. apply from_target_length in Ha. lia.
Qed.

(** A column taken from the target gives the frame its rows. *)
Lemma run_plan_rows_data (p : list (string * Series)) (df : DataFrame) :
  nrows df = 0 \/ nrows df = nrows new_df ->
  Forall (fun a => from_target new_df (snd a)) p ->
  (exists a, In a p /\ In (snd a) (map snd (cols new_df))) ->
  nrows (run_plan p df) = nrows new_df.
Proof.
  revert df. induction p as [|a p IH]; intros df Hdf Hp (b & Hb & Hdata).
  - destruct Hb.
  - inversion Hp as [|? ? Ha Hp']; subst.
    cbn [run_plan fold_left]. fold (run_plan p (setitem_series df (fst a) (snd a))).
    destruct Hb as [->|Hb].
    + apply run_plan_rows_keep; [|assumption].
      rewrite setitem_series_rows. apply target_length in Hdata.
      destruct (nrows df =? 0) eqn:E; [assumption|].
      apply Nat.eqb_neq in E. lia.
    + apply IH; [|assumption|now exists b].
      rewrite setitem_series_rows. apply from_target_length in Ha.
      destruct (nrows df =? 0) eqn:E; [lia|].
      apply Nat.eqb_neq in E. lia.
Qed.

End AgainstTarget.

(** Assignments of empty series give the frame no rows. *)
Lemma run_plan_rows_empty (p : list (string * Series)) (df : DataFrame) :
  Forall (fun a => snd a = empty_series) p ->
  nrows (run_plan p df) = nrows df.
Proof.
  revert df. induction p as [|a p IH]; intros df Hp; [reflexivity|].
  inversion Hp as [|? ? Ha Hp']; subst.
  cbn [run_plan fold_left]. fold (run_plan p (setitem_series df (fst a) (snd a))).
  rewrite IH by assumption. rewrite setitem_series_rows, Ha.
  destruct (nrows df =? 0) eqn:E; [|reflexivity].
  apply Nat.eqb_eq in E. simpl. lia.
Qed.

(** *** The assignments made for a reference and a target *)

Lemma instances_incl (df : DataFrame) (key : string) (c : string * Series) :
  In c (instances df key) -> In c (cols df).
Proof. unfold instances. rewrite filter_In. tauto. Qed.

Lemma instances_nil (df : DataFrame) (key : string) :
  ~ In key (columns_tolist df) -> instances df key = [].
Proof.
  intros H. destruct (instances df key) as [|c l] eqn:E; [reflexivity|].
  exfalso. apply H.
  assert (In c (instances df key)) as Hc by (rewrite E; now left).
  rewrite <- (instances_label df key c Hc).
  apply in_map. now apply (instances_incl df key).
Qed.

Lemma source_of_from_target (new_df : DataFrame) (col : string) :
  from_target new_df (source_of (instances new_df col)).
Proof.
  destruct (instances new_df col) as [|c [|c' l]] eqn:E; simpl;
    [now left| |now left].
  right. apply in_map. apply (instances_incl new_df col). rewrite E. now left.
Qed.

Lemma plan_of_from_target (new_df : DataFrame) (col : string) (r : nat) :
  Forall (fun a => from_target new_df (snd a))
    (plan_of col r (instances new_df col)).
Proof.
  unfold plan_of. destruct (r =? 1).
  - constructor; [apply source_of_from_target|constructor].
  - apply Forall_map. apply Forall_forall. intros i _. cbn [snd].
    destruct (i <? length (instances new_df col));
      [apply source_of_from_target|now left].
Qed.

Lemma plan_from_target (base_df new_df : DataFrame) :
  Forall (fun a => from_target new_df (snd a)) (plan base_df new_df).
Proof.
  unfold plan. apply Forall_flat_map. apply Forall_forall. intros col _.
  apply plan_of_from_target.
Qed.

Lemma plan_of_data (col : string) (r : nat) (c : string * Series) :
  1 <= r -> exists k, In (k, snd c) (plan_of col r [c]).
Proof.
  intros Hr. unfold plan_of. destruct (r =? 1).
  - exists col. now left.
  - exists (numbered col 0). destruct r as [|r]; [lia|]. now left.
Qed.

Lemma plan_has_data (base_df new_df : DataFrame) (col : string) :
  In col (columns_tolist base_df) -> occurrences new_df col = 1 ->
  exists a, In a (plan base_df new_df) /\ In (snd a) (map snd (cols new_df)).
Proof.
  intros Hc Hocc. unfold occurrences in Hocc.
  destruct (instances new_df col) as [|c [|c' l]] eqn:E; try discriminate.
  destruct (dict_item_counts _ col Hc) as [_ Hpos].
  destruct (plan_of_data col _ c Hpos) as (k & Hk).
  exists (k, snd c). split.
  - unfold plan. apply in_flat_map. exists col.
    split; [now rewrite unique_columns_In|]. now rewrite E.
  - cbn [snd]. apply (in_map snd _ c).
    apply (instances_incl new_df col). rewrite E. now left.
Qed.

Lemma plan_of_empty (col : string) (r : nat) :
  Forall (fun a : string * Series => snd a = empty_series) (plan_of col r []).
Proof.
  unfold plan_of. destruct (r =? 1).
  - constructor; [reflexivity|constructor].
  - apply Forall_map. apply Forall_forall. intros i _. reflexivity.
Qed.

Lemma plan_empty (base_df new_df : DataFrame) :
  (forall col, In col (columns_tolist base_df) ->
               ~ In col (columns_tolist new_df)) ->
  Forall (fun a => snd a = empty_series) (plan base_df new_df).
Proof.
  intros H. unfold plan. apply Forall_flat_map. apply Forall_forall.
  intros col Hc. rewrite unique_columns_In in Hc.
  rewrite instances_nil by now apply H. apply plan_of_empty.
Qed.

Lemma occurrences_pos (df : DataFrame) (col : string) :
  In col (columns_tolist df) -> 1 <= occurrences df col.
Proof.
  intros H. rewrite <- count_label_columns. now apply count_label_pos.
Qed.

(** *** The warnings *)

Lemma dict_lookup_In (d : dict) (k : string) (v : nat) :
  NoDup (map fst d) -> In (k, v) d -> dict_lookup d k = Some v.
Proof.
  induction d as [|[k0 v0] d IH]; simpl; [tauto|].
  intros Hnd [E|H]; inversion Hnd; subst.
  - injection E as -> ->. now rewrite String.eqb_refl.
  - destruct (String.eqb_spec k0 k) as [->|]; [|now apply IH].
    exfalso. match goal with Hn : ~ In _ _ |- _ => apply Hn end.
    change k with (fst (k, v)). now apply in_map.
Qed.

Lemma flat_map_keys {B : Type} (f : string * nat -> list B)
  (g : string -> list B) (d : dict) :
  (forall k v, In (k, v) d -> f (k, v) = g k) ->
  flat_map f d = flat_map g (map fst d).
Proof.
  induction d as [|[k v] d IH]; intros H; simpl; [reflexivity|].
  rewrite (H k v) by now left. f_equal. apply IH. intros; apply H; now right.
Qed.

Lemma flat_map_ext_in {A B : Type} (f g : A -> list B) (l : list A) :
  (forall a, In a l -> f a = g a) -> flat_map f l = flat_map g l.
Proof.
  induction l as [|a l IH]; intros H; simpl; [reflexivity|].
  rewrite (H a) by now left. f_equal. apply IH. intros; apply H; now right.
Qed.

Lemma column_counts_In (l : list string) (k : string) (v : nat) :
  In (k, v) (column_counts l) -> In k l /\ v = count_label k l.
Proof.
  intros H.
  assert (In k l) as Hk.
  { rewrite <- unique_columns_In, <- column_counts_keys.
    change k with (fst (k, v)). now apply in_map. }
  split; [assumption|].
  apply dict_lookup_In in H.
  - rewrite <- column_counts_get. unfold dict_get. now rewrite H.
  - rewrite column_counts_keys, unique_columns_spec. apply first_from_NoDup.
Qed.

(** The warnings, read on the two tables: one for each reference label, in
    first-occurrence order, that the target carries fewer times. *)
Lemma missing_instances_spec (base_df new_df : DataFrame) :
  missing_instances (column_counts (columns_tolist base_df))
    (column_counts (columns_tolist new_df))
  = flat_map
      (fun col =>
         if occurrences new_df col <? occurrences base_df col
         then [(col, occurrences base_df col, occurrences new_df col)]
         else [])
      (unique_columns (columns_tolist base_df)).
Proof.
  unfold missing_instances. rewrite <- column_counts_keys.
  apply flat_map_keys. intros k v H.
  apply column_counts_In in H as [Hk ->].
  rewrite column_counts_get, !count_label_columns.
  pose proof (occurrences_pos base_df k Hk) as Hpos.
  destruct (dict_contains (column_counts (columns_tolist new_df)) k) eqn:E;
    [reflexivity|].
  simpl.
  assert (occurrences new_df k = 0) as ->.
  { destruct (occurrences new_df k) eqn:O; [reflexivity|].
    assert (dict_contains (column_counts (columns_tolist new_df)) k = true)
      as E'; [|congruence].
    apply column_counts_contains.
    unfold occurrences in O.
    destruct (instances new_df k) as [|c l] eqn:I; [discriminate|].
    assert (In c (instances new_df k)) as Hc by (rewrite I; now left).
    rewrite <- (instances_label new_df k c Hc).
    apply in_map. now apply (instances_incl new_df k). }
  destruct (occurrences base_df k); [lia|reflexivity].
Qed.

(** A warning is printed for a reference name exactly when the target has
    fewer columns of that name than the reference; it carries the two
    counts.  The warnings are computed before the frame is built, whether
    or not building it raises. *)
Lemma warning_iff (base_df new_df : DataFrame) (name : string)
  (required found : nat) :
  In (name, required, found) (fst (standardize_data base_df new_df))
  <-> In name (columns_tolist base_df)
      /\ required = occurrences base_df name
      /\ found = occurrences new_df name
      /\ found < required.
Proof.
  cbn [fst standardize_data]. rewrite missing_instances_spec, in_flat_map.
  split.
  - intros (col & Hc & H). rewrite unique_columns_In in Hc.
    destruct (occurrences new_df col <? occurrences base_df col) eqn:E;
      [|destruct H].
    destruct H as [H|[]]. injection H as <- <- <-.
    apply Nat.ltb_lt in E. tauto.
  - intros (Hc & -> & -> & Hlt). exists name.
    split; [now rewrite unique_columns_In|].
    apply Nat.ltb_lt in Hlt. rewrite Hlt. now left.
Qed.

(** *** The outcome depends on the target through the columns that carry a
    reference label *)

Lemma standardized_ext (base_df new1 new2 : DataFrame) :
  (forall col, In col (columns_tolist base_df) ->
               instances new1 col = instances new2 col) ->
  standardized base_df new1 = standardized base_df new2.
Proof.
  intros H. unfold standardized. f_equal. apply for_each_ext.
  intros s col Hc. rewrite unique_columns_In in Hc.
  now rewrite !process_column_via, (H col Hc).
Qed.

Lemma standardize_data_ext (base_df new1 new2 : DataFrame) :
  (forall col, In col (columns_tolist base_df) ->
               instances new1 col = instances new2 col) ->
  standardize_data base_df new1 = standardize_data base_df new2.
Proof.
  intros H. unfold standardize_data. rewrite !missing_instances_spec.
  rewrite (standardized_ext _ _ _ H). f_equal.
  apply flat_map_ext_in. intros col Hc. rewrite unique_columns_In in Hc.
  unfold occurrences. now rewrite (H col Hc).
Qed.

(** *** Tables whose assigned labels are pairwise distinct *)

Lemma first_from_distinct (l seen : list string) :
  NoDup l -> (forall x, In x l -> ~ In x seen) -> first_from seen l = l.
Proof.
  revert seen. induction l as [|x l IH]; intros seen Hnd Hs; [reflexivity|].
  inversion Hnd; subst. simpl.
  assert (existsb (String.eqb x) seen = false) as ->
    by (apply mem_false, Hs; now left).
  f_equal. apply IH; [assumption|].
  intros y Hy [<-|Hin]; [contradiction|]. apply (Hs y); [now right|assumption].
Qed.

Lemma count_label_absent (k : string) (l : list string) :
  ~ In k l -> count_label k l = 0.
Proof.
  unfold count_label. induction l as [|x l IH]; simpl; [reflexivity|].
  intros H. destruct (String.eqb_spec x k) as [->|]; [tauto|].
  apply IH. tauto.
Qed.

Lemma count_label_NoDup (k : string) (l : list string) :
  NoDup l -> count_label k l <= 1.
Proof.
  induction 1 as [|x l Hx Hnd IH]; [unfold count_label; simpl; lia|].
  unfold count_label in *. simpl.
  destruct (String.eqb_spec x k) as [->|]; [|assumption].
  simpl. pose proof (count_label_absent k l Hx) as H0.
  unfold count_label in H0. lia.
Qed.

Lemma transient_of_length (col : string) (r : nat) :
  1 <= r -> length (transient_of col r) = r.
Proof.
  intros Hr. unfold transient_of. destruct (r =? 1) eqn:E.
  - apply Nat.eqb_eq in E. now subst.
  - now rewrite length_map, length_seq.
Qed.

(** As many labels are assigned as the reference has columns. *)
Lemma transient_names_length (l : list string) :
  length (transient_names l) = length l.
Proof.
  unfold transient_names. rewrite length_flat_map.
  transitivity (list_sum (map snd (column_counts l))).
  - rewrite <- column_counts_keys, map_map. f_equal.
    apply map_ext_in. intros [k v] H. cbn [fst snd].
    apply column_counts_In in H as [Hk ->].
    rewrite column_counts_get. apply transient_of_length.
    now apply count_label_pos.
  - unfold column_counts. fold (counts_from [] l).
    now rewrite counts_from_sum.
Qed.

Lemma standardized_distinct (base_df new_df out : DataFrame) :
  standardized base_df new_df = Ok out ->
  NoDup (transient_names (columns_tolist base_df)) ->
  columns_tolist out = map Re.sub (transient_names (columns_tolist base_df))
  /\ length (cols out) = length (cols base_df).
Proof.
  intros H Hnd. pose proof (standardized_labels _ _ _ H) as Hl.
  unfold first_occurrences in Hl.
  rewrite first_from_distinct in Hl by (auto; intros ? ? []).
  split; [assumption|].
  rewrite <- (length_map fst (cols out)). fold (columns_tolist out).
  rewrite Hl, length_map, transient_names_length.
  unfold columns_tolist. apply length_map.
Qed.

Lemma flat_map_singletons {A : Type} (f : A -> list A) (l : list A) :
  (forall a, In a l -> f a = [a]) -> flat_map f l = l.
Proof.
  induction l as [|a l IH]; intros H; simpl; [reflexivity|].
  rewrite (H a) by now left. simpl. f_equal. apply IH.
  intros; apply H; now right.
Qed.

(** A reference without repeated names: the labels assigned are its own. *)
Lemma transient_names_NoDup (l : list string) :
  NoDup l -> transient_names l = l.
Proof.
  intros Hnd. unfold transient_names.
  rewrite unique_columns_spec. unfold first_occurrences.
  rewrite first_from_distinct by (auto; intros ? ? []).
  apply flat_map_singletons. intros col Hc. rewrite column_counts_get.
  pose proof (count_label_pos col l Hc).
  pose proof (count_label_NoDup col l Hnd).
  replace (count_label col l) with 1 by lia. reflexivity.
Qed.


(** *** The saved columns, place by place *)

Lemma set_column_fresh (key : string) (data : Series) (l : list (string * Series)) :
  ~ In key (map fst l) -> set_column key data l = l ++ [(key, data)].
Proof.
  intros H. unfold set_column.
  assert (existsb (fun c => String.eqb (fst c) key) l = false) as ->;
    [|reflexivity].
  apply not_true_is_false. intros E. apply H.
  apply existsb_exists in E as (c & Hc & E).
  apply String.eqb_eq in E. subst. now apply in_map.
Qed.

Lemma run_plan_snoc (p : list (string * Series)) (a : string * Series)
  (df : DataFrame) :
  run_plan (p ++ [a]) df = setitem_series (run_plan p df) (fst a) (snd a).
Proof. now rewrite run_plan_app. Qed.

Section Places.

Variable new_df : DataFrame.
Hypothesis new_df_wf : well_formed new_df.

(** As long as the frame has no row, only empty series were assigned. *)
Lemma run_plan_no_rows (p : list (string * Series)) (a : string * Series) :
  Forall (fun a => from_target new_df (snd a)) p ->
  nrows (run_plan p empty_frame) = 0 -> In a p -> snd a = [].
Proof.
  intros Hp H0 Ha. rewrite Forall_forall in Hp.
  destruct (Hp a Ha) as [E|Hd]; [exact E|].
  pose proof (target_length new_df new_df_wf _ Hd) as Hlen.
  assert (nrows (run_plan p empty_frame) = nrows new_df) as Hn.
  { apply (run_plan_rows_data new_df new_df_wf);
      [now left|now apply Forall_forall|now exists a]. }
  apply length_zero_iff_nil. lia.
Qed.

Lemma run_plan_cols (p : list (string * Series)) :
  Forall (fun a => from_target new_df (snd a)) p ->
  NoDup (map fst p) ->
  cols (run_plan p empty_frame)
  = map (fun a => (fst a, reindex (snd a) (nrows (run_plan p empty_frame)))) p.
Proof.
  induction p as [|a p IH] using rev_ind; intros Hp Hnd; [reflexivity|].
  apply Forall_app in Hp as [Hp Ha]. inversion Ha as [|? ? Hs _]; subst.
  rewrite map_app in Hnd. simpl in Hnd.
  pose proof (NoDup_remove_1 _ _ _ Hnd) as Hnd'. rewrite app_nil_r in Hnd'.
  pose proof (NoDup_remove_2 _ _ _ Hnd) as Hfresh. rewrite app_nil_r in Hfresh.
  specialize (IH Hp Hnd').
  assert (map fst (cols (run_plan p empty_frame)) = map fst p) as Hlabels.
  { fold (columns_tolist (run_plan p empty_frame)). rewrite run_plan_labels.
    simpl. apply first_from_distinct; [assumption|]. intros ? ? []. }
  rewrite run_plan_snoc. unfold setitem_series, ensure_valid_index.
  destruct ((nrows (run_plan p empty_frame) =? 0) && (0 <? length (snd a))) eqn:E;
    cbn [nrows cols].
  - apply andb_prop in E as [E0 _]. apply Nat.eqb_eq in E0.
    assert (map fst
              (map (fun c : string * Series =>
                      (fst c, reindex (snd c) (length (snd a))))
                 (cols (run_plan p empty_frame)))
            = map fst p) as Hlabels'
      by (rewrite map_map, <- Hlabels; now apply map_ext).
    rewrite set_column_fresh by now rewrite Hlabels'.
    rewrite map_app. simpl. f_equal.
    rewrite IH, map_map. apply map_ext_in. intros b Hb.
    pose proof (run_plan_no_rows p b Hp E0 Hb) as Hb0.
    destruct b as [kb sb]. cbn [fst snd] in *. subst sb.
    rewrite E0. reflexivity.
  - rewrite set_column_fresh by now rewrite Hlabels.
    rewrite map_app. simpl. f_equal. exact IH.
Qed.

(** When the labels assigned are pairwise distinct, each place of the saved
    table holds the data planned for it, aligned on the rows of the table. *)
Lemma standardized_cols (base_df out : DataFrame) :
  standardized base_df new_df = Ok out ->
  NoDup (transient_names (columns_tolist base_df)) ->
  cols out
  = map (fun a => (Re.sub (fst a), reindex (snd a) (nrows out)))
      (plan base_df new_df).
Proof.
  intros H Hnd. apply standardized_Ok_inv in H as [_ ->].
  unfold remove_column_numbering. cbn [cols nrows].
  rewrite run_plan_cols.
  - rewrite map_map. reflexivity.
  - apply plan_from_target.
  - now rewrite plan_labels.
Qed.

End Places.

(** *** The order of the target's columns *)

Lemma filter_Permutation {A : Type} (f : A -> bool) (l l' : list A) :
  Permutation l l' -> Permutation (filter f l) (filter f l').
Proof.
  induction 1 as [|x l l' _ IH|x y l|l l' l'' _ IH1 _ IH2]; simpl.
  - constructor.
  - destruct (f x); [now constructor|assumption].
  - destruct (f x), (f y); try apply Permutation_refl. apply perm_swap.
  - now apply Permutation_trans with (filter f l').
Qed.

(** The warnings and the saved table do not depend on the order of the
    columns of the target. *)
Lemma standardize_data_permutation (base_df new1 new2 : DataFrame) :
  Permutation (cols new1) (cols new2) ->
  standardize_data base_df new1 = standardize_data base_df new2.
Proof.
  intros Hperm.
  assert (forall col, Permutation (instances new1 col) (instances new2 col))
    as Hinst by (intros; now apply filter_Permutation).
  assert (forall col, occurrences new1 col = occurrences new2 col) as Hocc
    by (intros; now apply Permutation_length).
  destruct (Forall_Exists_dec (fun col => occurrences new1 col <= 1)
              (fun col => le_dec (occurrences new1 col) 1)
              (columns_tolist base_df)) as [Hall|Hex].
  - rewrite Forall_forall in Hall. apply standardize_data_ext.
    intros col Hc. specialize (Hall col Hc). specialize (Hinst col).
    unfold occurrences in Hall.
    destruct (instances new1 col) as [|c [|c' l]]; simpl in Hall; [| |lia].
    + now apply Permutation_nil in Hinst.
    + now apply Permutation_length_1_inv in Hinst.
  - apply Exists_exists in Hex as (col & Hc & Hgt).
    unfold standardize_data. rewrite !missing_instances_spec.
    rewrite !standardized_raise.
    + f_equal. apply flat_map_ext_in. intros c _. now rewrite Hocc.
    + exists col. split; [assumption|]. rewrite <- Hocc. lia.
    + exists col. split; [assumption|lia].
Qed.

Lemma remove_column_numbering_invariant (new_df df : DataFrame) :
  build_invariant new_df df ->
  build_invariant new_df (remove_column_numbering df).
Proof.
  intros (Hwf & Hrows & Hpc).
  unfold build_invariant, well_formed, padded_or_copied, remove_column_numbering
    in *.
  cbn [nrows cols]. repeat split; [|assumption|];
    apply Forall_map; assumption.
Qed.

End PlanFacts.

(** * Properties of the renaming *)

Module RenameFacts.
Import CensusFacts.

Lemma mapping_lookup_set (m : mapping) (k v k' : string) :
  mapping_lookup (mapping_set m k v) k'
  = if String.eqb k k' then Some v else mapping_lookup m k'.
Proof.
  induction m as [|[k0 v0] m IH]; simpl; [reflexivity|].
  destruct (String.eqb_spec k0 k) as [->|Hk]; simpl.
  - destruct (String.eqb k k'); reflexivity.
  - rewrite IH. destruct (String.eqb_spec k0 k') as [->|]; [|reflexivity].
    destruct (String.eqb_spec k k'); congruence.
Qed.

(** After the loop every label of the frame is a key, and its value is its
    own stripped form, however often the label occurs. *)
Lemma column_mapping_lookup (columns : list string) (m : mapping) (k : string) :
  mapping_lookup (column_mapping_from m columns) k
  = if existsb (String.eqb k) columns then Some (Re.sub k)
    else mapping_lookup m k.
Proof.
  revert m. induction columns as [|x l IH]; intros m; [reflexivity|].
  unfold column_mapping_from in *. cbn [fold_left existsb].
  rewrite IH, mapping_lookup_set, (String.eqb_sym k x).
  destruct (String.eqb_spec x k) as [->|]; simpl; [|reflexivity].
  destruct (existsb (String.eqb k) l); reflexivity.
Qed.

Lemma renamed_ok (m : mapping) (columns : list string) :
  (forall col, In col columns -> mapping_lookup m col = Some (Re.sub col)) ->
  renamed m columns = Ok (map Re.sub columns).
Proof.
  induction columns as [|x l IH]; intros H; [reflexivity|].
  cbn [renamed map]. unfold mapping_item. rewrite (H x) by now left.
  simpl. rewrite IH by (intros; apply H; now right). reflexivity.
Qed.

Lemma combine_labels (f : string -> string) (l : list (string * Series)) :
  combine (map f (map fst l)) (map snd l) = map (fun c => (f (fst c), snd c)) l.
Proof. induction l as [|c l IH]; simpl; [reflexivity|now rewrite IH]. Qed.

Lemma remove_column_numbering_loop_ok (df : DataFrame) :
  remove_column_numbering_loop df = Ok (remove_column_numbering df).
Proof.
  unfold remove_column_numbering_loop.
  rewrite renamed_ok.
  - simpl. unfold set_columns, columns_tolist.
    rewrite !length_map, Nat.eqb_refl, combine_labels. reflexivity.
  - intros col Hc. rewrite column_mapping_lookup.
    apply mem_In in Hc. now rewrite Hc.
Qed.

Lemma map_fixed {A : Type} (f : A -> A) (l : list A) :
  map f l = l <-> forall a, In a l -> f a = a.
Proof.
  induction l as [|a l IH]; simpl; [split; [tauto|reflexivity]|].
  split.
  - intros H. injection H as Ha Hl. intros b [<-|Hb]; [assumption|].
    now apply IH.
  - intros H. rewrite (H a) by now left. f_equal. apply IH.
    intros; apply H; now right.
Qed.

Lemma remove_column_numbering_fixed (df : DataFrame) :
  remove_column_numbering df = df
  <-> forall name, In name (columns_tolist df) -> Re.search name = false.
Proof.
  destruct df as [rows l]. unfold remove_column_numbering, columns_tolist.
  cbn [nrows cols]. split.
  - intros H name Hn. injection H as H.
    apply ReFacts.search_sub_fixed.
    assert (map Re.sub (map fst l) = map fst l) as Hl.
    { rewrite <- H at 2. rewrite !map_map. reflexivity. }
    now apply (proj1 (map_fixed Re.sub (map fst l)) Hl).
  - intros H. f_equal. rewrite <- (map_id l) at 2. apply map_ext_in.
    intros [k d] Hc. cbn [fst snd]. f_equal.
    apply ReFacts.search_sub_fixed. apply H.
    change k with (fst (k, d)). now apply in_map.
Qed.

(** *** Decimal numerals *)

Lemma succ_nonnil (d : Decimal.uint) : Decimal.Little.succ d <> Decimal.Nil.
Proof. destruct d; simpl; discriminate. Qed.

Lemma to_little_uint_nonnil (n : nat) (acc : Decimal.uint) :
  acc <> Decimal.Nil -> Nat.to_little_uint n acc <> Decimal.Nil.
Proof.
  revert acc. induction n as [|n IH]; intros acc H; simpl; [assumption|].
  apply IH, succ_nonnil.
Qed.

Lemma revapp_nonnil (d d' : Decimal.uint) :
  d' <> Decimal.Nil -> Decimal.revapp d d' <> Decimal.Nil.
Proof.
  revert d'. induction d; intros d' H; simpl; try assumption;
    apply IHd; discriminate.
Qed.

Lemma to_uint_nonnil (n : nat) : Nat.to_uint n <> Decimal.Nil.
Proof.
  unfold Nat.to_uint, Decimal.rev.
  pose proof (to_little_uint_nonnil n Decimal.zero) as H.
  destruct (Nat.to_little_uint n Decimal.zero);
    [elim H; [discriminate|reflexivity]| ..];
    simpl; apply revapp_nonnil; discriminate.
Qed.

(** [str(n)] is a digit followed by digits. *)
Lemma str_of_int_digits (n : nat) :
  exists d ds,
    str_of_int n = String d ds
    /\ Re.is_digit d = true /\ Re.all_digits ds = true.
Proof.
  unfold str_of_int.
  pose proof (ReFacts.string_of_uint_digits (Nat.to_uint n)) as H.
  pose proof (to_uint_nonnil n) as Hn.
  destruct (NilEmpty.string_of_uint (Nat.to_uint n)) as [|d ds] eqn:E.
  - destruct (Nat.to_uint n); simpl in E; try discriminate. now elim Hn.
  - simpl in H. apply andb_prop in H as [Hd Hds]. now exists d, ds.
Qed.

(** The renaming gives back the header that a reader numbered. *)
Lemma sub_dot_numbered (name : string) (i : nat) :
  Re.sub (dot_numbered name i) = name.
Proof.
  unfold dot_numbered.
  destruct (str_of_int_digits i) as (d & ds & -> & Hd & Hds).
  now apply ReFacts.sub_group.
Qed.

End RenameFacts.

(** * Tables whose names are pairwise distinct *)

Module UniqueFacts.
Import CensusFacts BuildFacts PlanFacts.

(** Either no reference name is carried twice by the target and the frame
    is built, or one is and the first assignment of such a name raises. *)
Lemma standardized_cases (base_df new_df : DataFrame) :
  ((forall col, In col (columns_tolist base_df) -> occurrences new_df col <= 1)
   /\ standardized base_df new_df
      = Ok (remove_column_numbering (run_plan (plan base_df new_df) empty_frame)))
  \/ ((exists col, In col (columns_tolist base_df) /\ 2 <= occurrences new_df col)
      /\ standardized base_df new_df = Raise ValueError).
Proof.
  destruct (Forall_Exists_dec (fun col => occurrences new_df col <= 1)
              (fun col => le_dec (occurrences new_df col) 1)
              (columns_tolist base_df)) as [Hall|Hex].
  - left. rewrite Forall_forall in Hall. split; [assumption|].
    now apply standardized_ok.
  - right. apply Exists_exists in Hex as (col & Hc & Hgt).
    assert (exists col, In col (columns_tolist base_df)
                        /\ 2 <= occurrences new_df col) as H
      by (exists col; split; [assumption|lia]).
    split; [assumption|now apply standardized_raise].
Qed.

Lemma occurrences_NoDup (df : DataFrame) (name : string) :
  NoDup (columns_tolist df) -> occurrences df name <= 1.
Proof.
  intros H. rewrite <- count_label_columns. now apply count_label_NoDup.
Qed.

Lemma occurrences_absent (df : DataFrame) (name : string) :
  ~ In name (columns_tolist df) -> occurrences df name = 0.
Proof. intros H. unfold occurrences. now rewrite instances_nil. Qed.

Lemma flat_map_single {A B : Type} (f : A -> list B) (g : A -> B) (l : list A) :
  (forall a, In a l -> f a = [g a]) -> flat_map f l = map g l.
Proof.
  induction l as [|a l IH]; intros H; simpl; [reflexivity|].
  rewrite (H a) by now left. simpl. f_equal. apply IH.
  intros; apply H; now right.
Qed.

Lemma unique_columns_NoDup (l : list string) : NoDup l -> unique_columns l = l.
Proof.
  intros H. rewrite unique_columns_spec. unfold first_occurrences.
  apply first_from_distinct; [assumption|]. intros ? ? [].
Qed.

Lemma count_one (l : list string) (col : string) :
  NoDup l -> In col l -> dict_get (column_counts l) col 0 = 1.
Proof.
  intros Hnd Hc. rewrite column_counts_get.
  pose proof (count_label_pos col l Hc).
  pose proof (count_label_NoDup col l Hnd). lia.
Qed.

(** One assignment for each column of the reference. *)
Lemma plan_NoDup (base_df new_df : DataFrame) :
  NoDup (columns_tolist base_df) ->
  plan base_df new_df
  = map (fun col => (col, source_of (instances new_df col)))
      (columns_tolist base_df).
Proof.
  intros Hnd. unfold plan. rewrite (unique_columns_NoDup _ Hnd).
  apply flat_map_single. intros col Hc.
  now rewrite (count_one _ _ Hnd Hc).
Qed.

Lemma some_name_matched_true (base_df new_df : DataFrame) :
  some_name_matched base_df new_df = true
  <-> exists col, In col (columns_tolist base_df)
                  /\ In col (columns_tolist new_df).
Proof.
  unfold some_name_matched. rewrite existsb_exists.
  split; intros (col & Hb & Hn); exists col; split; try assumption;
    now apply mem_In.
Qed.

Lemma some_name_matched_false (base_df new_df : DataFrame) :
  some_name_matched base_df new_df = false ->
  forall col, In col (columns_tolist base_df) ->
              ~ In col (columns_tolist new_df).
Proof.
  intros H col Hb Hn.
  assert (some_name_matched base_df new_df = true) as H'
    by (apply some_name_matched_true; now exists col).
  congruence.
Qed.

(** The rows of the saved table. *)
Lemma standardized_rows (base_df new_df out : DataFrame) :
  well_formed new_df ->
  standardized base_df new_df = Ok out ->
  nrows out = if some_name_matched base_df new_df then nrows new_df else 0.
Proof.
  intros Hwf H. apply standardized_Ok_inv in H as [Hall ->].
  change (nrows (remove_column_numbering
                   (run_plan (plan base_df new_df) empty_frame)))
    with (nrows (run_plan (plan base_df new_df) empty_frame)).
  destruct (some_name_matched base_df new_df) eqn:E.
  - apply some_name_matched_true in E as (col & Hb & Hn).
    apply (run_plan_rows_data new_df Hwf);
      [now left|apply plan_from_target|].
    apply (plan_has_data base_df new_df col Hb).
    pose proof (Hall col Hb). pose proof (occurrences_pos new_df col Hn). lia.
  - rewrite run_plan_rows_empty; [reflexivity|].
    apply plan_empty. now apply some_name_matched_false.
Qed.

Lemma column_of_instances (df : DataFrame) (name : string) :
  occurrences df name <= 1 ->
  source_of (instances df name)
  = match column_of df name with Some data => data | None => [] end.
Proof.
  unfold occurrences, column_of.
  destruct (instances df name) as [|c [|c' l]]; simpl; [reflexivity|reflexivity|lia].
Qed.

Lemma column_of_length (df : DataFrame) (name : string) (data : Series) :
  well_formed df -> column_of df name = Some data -> length data = nrows df.
Proof.
  intros Hwf H. unfold column_of in H.
  destruct (instances df name) as [|c l] eqn:E; [discriminate|].
  injection H as <-. unfold well_formed in Hwf. rewrite Forall_forall in Hwf.
  apply Hwf. apply (instances_incl df name). rewrite E. now left.
Qed.

Lemma column_of_In (df : DataFrame) (name : string) (data : Series) :
  column_of df name = Some data -> In name (columns_tolist df).
Proof.
  intros H. destruct (in_dec string_dec name (columns_tolist df)) as [Hi|Hn];
    [assumption|].
  unfold column_of in H. rewrite (instances_nil df name Hn) in H. discriminate.
Qed.

(** What is planned for a name, aligned on the rows of the saved table, is
    the column of the target or a column of [NaN]. *)
Lemma source_reindexed (new_df : DataFrame) (name : string) (rows : nat) :
  well_formed new_df -> occurrences new_df name <= 1 ->
  (In name (columns_tolist new_df) -> rows = nrows new_df) ->
  reindex (source_of (instances new_df name)) rows
  = column_or_nan new_df name rows.
Proof.
  intros Hwf Hocc Hrows. rewrite (column_of_instances _ _ Hocc).
  unfold column_or_nan. destruct (column_of new_df name) as [data|] eqn:E.
  - rewrite Hrows by now apply (column_of_In _ _ data).
    rewrite <- (column_of_length _ _ _ Hwf E). apply reindex_full.
  - apply reindex_nil.
Qed.

(** The saved table for a reference and a target without repeated names. *)
Lemma standardized_unique (base_df new_df : DataFrame) :
  NoDup (columns_tolist base_df) -> NoDup (columns_tolist new_df) ->
  well_formed new_df ->
  standardized base_df new_df
  = Ok (mkDataFrame
          (if some_name_matched base_df new_df then nrows new_df else 0)
          (map (fun name =>
                  (Re.sub name,
                   column_or_nan new_df name
                     (if some_name_matched base_df new_df
                      then nrows new_df else 0)))
             (columns_tolist base_df))).
Proof.
  intros Hb Hn Hwf.
  assert (forall col, In col (columns_tolist base_df) ->
                      occurrences new_df col <= 1) as Hall
    by (intros; now apply occurrences_NoDup).
  pose proof (standardized_ok _ _ Hall) as H.
  pose proof (standardized_rows _ _ _ Hwf H) as Hrows.
  pose proof (standardized_cols new_df Hwf base_df _ H) as Hcols.
  rewrite (transient_names_NoDup _ Hb) in Hcols. specialize (Hcols Hb).
  rewrite H. f_equal.
  destruct (remove_column_numbering
              (run_plan (plan base_df new_df) empty_frame)) as [r l].
  cbn [nrows cols] in *. subst r l. f_equal.
  rewrite (plan_NoDup _ _ Hb), map_map. apply map_ext_in.
  intros name Hname. cbn [fst snd]. f_equal.
  apply source_reindexed; [assumption|now apply Hall|].
  intros Hin.
  assert (some_name_matched base_df new_df = true) as ->
    by (apply some_name_matched_true; now exists name).
  reflexivity.
Qed.

(** *** The number of saved columns *)

Lemma first_from_length (l seen : list string) :
  length (first_from seen l) <= length l.
Proof.
  revert seen. induction l as [|x l IH]; intros seen; simpl; [lia|].
  destruct (existsb (String.eqb x) seen); simpl.
  - specialize (IH seen). lia.
  - specialize (IH (x :: seen)). lia.
Qed.

Lemma first_from_full (l seen : list string) :
  length (first_from seen l) = length l -> first_from seen l = l.
Proof.
  revert seen. induction l as [|x l IH]; intros seen; simpl; [reflexivity|].
  destruct (existsb (String.eqb x) seen); simpl.
  - pose proof (first_from_length l seen). lia.
  - intros H. f_equal. apply IH. lia.
Qed.

Lemma standardized_count (base_df new_df out : DataFrame) :
  standardized base_df new_df = Ok out ->
  length (cols out) <= length (cols base_df)
  /\ (length (cols out) = length (cols base_df)
      <-> NoDup (transient_names (columns_tolist base_df))).
Proof.
  intros H. pose proof (standardized_labels _ _ _ H) as Hl.
  assert (length (cols out)
          = length (first_occurrences (transient_names (columns_tolist base_df))))
    as ->.
  { rewrite <- (length_map fst (cols out)). fold (columns_tolist out).
    now rewrite Hl, length_map. }
  assert (length (cols base_df)
          = length (transient_names (columns_tolist base_df))) as ->.
  { rewrite transient_names_length. unfold columns_tolist.
    now rewrite length_map. }
  unfold first_occurrences. split; [apply first_from_length|]. split.
  - intros E. rewrite <- (first_from_full _ _ E). apply first_from_NoDup.
  - intros Hnd. rewrite first_from_distinct; [reflexivity|assumption|].
    intros ? ? [].
Qed.

(** *** Running the standardisation on its own result *)

Lemma instances_of_map (f : string -> Series) (l : list string) (rows : nat)
  (name : string) :
  NoDup l -> In name l ->
  instances (mkDataFrame rows (map (fun n => (n, f n)) l)) name
  = [(name, f name)].
Proof.
  unfold instances. cbn [cols].
  induction l as [|x l IH]; intros Hnd Hin; [destruct Hin|].
  inversion Hnd as [|? ? Hx Hnd']; subst. simpl.
  destruct (String.eqb_spec x name) as [->|Hne].
  - f_equal.
    assert (forall l', ~ In name l' ->
              filter (fun c : string * Series => String.eqb (fst c) name)
                (map (fun n => (n, f n)) l') = []) as Hnil.
    { induction l' as [|y l' IH']; intros Hy; simpl; [reflexivity|].
      destruct (String.eqb_spec y name) as [->|]; [elim Hy; now left|].
      apply IH'. intros ?; apply Hy; now right. }
    now apply Hnil.
  - destruct Hin as [->|Hin]; [congruence|]. now apply IH.
Qed.

Lemma column_or_nan_length (new_df : DataFrame) (name : string) (rows : nat) :
  well_formed new_df ->
  (In name (columns_tolist new_df) -> rows = nrows new_df) ->
  length (column_or_nan new_df name rows) = rows.
Proof.
  intros Hwf Hrows. unfold column_or_nan.
  destruct (column_of new_df name) as [data|] eqn:E.
  - rewrite (column_of_length _ _ _ Hwf E). symmetry. apply Hrows.
    now apply (column_of_In _ _ data).
  - apply repeat_length.
Qed.

Lemma standardize_data_again (base_df new_df out : DataFrame) :
  NoDup (columns_tolist base_df) -> NoDup (columns_tolist new_df) ->
  well_formed new_df ->
  (forall name, In name (columns_tolist base_df) -> Re.search name = false) ->
  standardized base_df new_df = Ok out ->
  standardize_data base_df out = ([], Ok out).
Proof.
  intros Hb Hn Hwf Hclean H.
  rewrite (standardized_unique _ _ Hb Hn Hwf) in H. injection H as H.
  set (rows := if some_name_matched base_df new_df then nrows new_df else 0) in *.
  assert (out = mkDataFrame rows
                  (map (fun name => (name, column_or_nan new_df name rows))
                     (columns_tolist base_df))) as Hout.
  { rewrite <- H. f_equal. apply map_ext_in. intros name Hname.
    f_equal. apply ReFacts.search_sub_fixed. now apply Hclean. }
  clear H.
  assert (forall name, In name (columns_tolist base_df) ->
            In name (columns_tolist new_df) -> rows = nrows new_df) as Hrows.
  { intros name Hname Hin. unfold rows.
    assert (some_name_matched base_df new_df = true) as ->
      by (apply some_name_matched_true; now exists name).
    reflexivity. }
  assert (columns_tolist out = columns_tolist base_df) as Hlabels.
  { rewrite Hout. unfold columns_tolist at 1. cbn [cols].
    rewrite map_map. apply map_id. }
  assert (well_formed out) as Hwf_out.
  { rewrite Hout. unfold well_formed. cbn [nrows cols].
    apply Forall_map. apply Forall_forall. intros name Hname. cbn [snd].
    apply column_or_nan_length; [assumption|now apply Hrows]. }
  assert (forall name, In name (columns_tolist base_df) ->
            instances out name = [(name, column_or_nan new_df name rows)])
    as Hinst.
  { intros name Hname. rewrite Hout. now apply instances_of_map. }
  unfold standardize_data. rewrite missing_instances_spec. f_equal.
  - rewrite (unique_columns_NoDup _ Hb).
    assert (forall l, (forall col, In col l -> In col (columns_tolist base_df)) ->
              flat_map
                (fun col =>
                   if occurrences out col <? occurrences base_df col
                   then [(col, occurrences base_df col, occurrences out col)]
                   else []) l = []) as Hnil.
    { induction l as [|col l IH]; intros Hl; [reflexivity|]. simpl.
      rewrite IH by (intros; apply Hl; now right). rewrite app_nil_r.
      assert (In col (columns_tolist base_df)) as Hc by (apply Hl; now left).
      unfold occurrences at 1. rewrite (Hinst col Hc). simpl.
      pose proof (occurrences_pos base_df col Hc) as Hpos.
      pose proof (occurrences_NoDup base_df col Hb) as Hle.
      replace (occurrences base_df col) with 1 by lia. reflexivity. }
    apply Hnil. auto.
  - rewrite (standardized_unique base_df out Hb);
      [|now rewrite Hlabels|assumption].
    f_equal.
    assert ((if some_name_matched base_df out then nrows out else 0) = rows)
      as ->.
    { destruct (some_name_matched base_df out) eqn:E.
      - rewrite Hout. reflexivity.
      - destruct (columns_tolist base_df) as [|name l] eqn:El.
        + unfold rows, some_name_matched. rewrite El. reflexivity.
        + exfalso.
          apply (some_name_matched_false _ _ E name);
            rewrite ?Hlabels, ?El; now left. }
    etransitivity; [|symmetry; exact Hout].
    f_equal. apply map_ext_in. intros name Hname.
    f_equal.
    + apply ReFacts.search_sub_fixed. now apply Hclean.
    + unfold column_or_nan at 1, column_of. now rewrite (Hinst name Hname).
Qed.

End UniqueFacts.

(** * Properties of paths and file formats *)

Module PathFacts.

(** *** Stripping the quotes *)

Lemma lstrip_all_quotes (q : string) :
  all_quotes q = true -> lstrip_quotes q = EmptyString.
Proof.
  induction q as [|c q IH]; simpl; [reflexivity|].
  intros H. apply andb_prop in H as [-> H]. auto.
Qed.

Lemma rstrip_all_quotes (q : string) :
  all_quotes q = true -> rstrip_quotes q = EmptyString.
Proof.
  induction q as [|c q IH]; simpl; [reflexivity|].
  intros H. apply andb_prop in H as [Hc H]. now rewrite IH, Hc.
Qed.

Lemma lstrip_app_quotes (q x : string) :
  all_quotes q = true -> lstrip_quotes (q ++ x) = lstrip_quotes x.
Proof.
  induction q as [|c q IH]; simpl; [reflexivity|].
  intros H. apply andb_prop in H as [-> H]. auto.
Qed.

Lemma rstrip_app_quotes (x q : string) :
  all_quotes q = true -> rstrip_quotes (x ++ q) = rstrip_quotes x.
Proof.
  intros H. induction x as [|c x IH]; simpl.
  - now apply rstrip_all_quotes.
  - now rewrite IH.
Qed.

Lemma strip_app_quotes (p q : string) :
  all_quotes q = true ->
  rstrip_quotes (lstrip_quotes (p ++ q)) = rstrip_quotes (lstrip_quotes p).
Proof.
  intros H. induction p as [|c p IH]; simpl.
  - now rewrite (lstrip_all_quotes q H).
  - destruct (is_quote c); [exact IH|].
    change (String c (p ++ q)) with (String c p ++ q)%string.
    now apply rstrip_app_quotes.
Qed.

Lemma strip_quotes_quoted (q1 p q2 : string) :
  all_quotes q1 = true -> all_quotes q2 = true ->
  strip_quotes (q1 ++ p ++ q2) = strip_quotes p.
Proof.
  intros H1 H2. unfold strip_quotes.
  rewrite (lstrip_app_quotes q1 _ H1). now apply strip_app_quotes.
Qed.

(** *** Cutting at the last separator and at the last dot *)

Lemma append_nil_r (s : string) : (s ++ "")%string = s.
Proof. induction s as [|c s IH]; simpl; [reflexivity|now rewrite IH]. Qed.

Lemma append_assoc (x y z : string) :
  ((x ++ y) ++ z)%string = (x ++ (y ++ z))%string.
Proof. induction x as [|c x IH]; simpl; [reflexivity|now rewrite IH]. Qed.

Lemma rsplit_Some (f : ascii -> bool) (s before after : string) :
  rsplit f s = Some (before, after) ->
  exists c, f c = true /\ s = (before ++ String c after)%string
            /\ rsplit f after = None.
Proof.
  revert before. induction s as [|c s IH]; intros before; simpl; [discriminate|].
  destruct (rsplit f s) as [[b a]|] eqn:E.
  - intros H. injection H as <- <-.
    destruct (IH b eq_refl) as (c' & Hc & -> & Hn).
    exists c'. repeat split; assumption.
  - destruct (f c) eqn:Hc; [|discriminate].
    intros H. injection H as <- <-. exists c. repeat split; assumption.
Qed.

Lemma rsplit_app_Some (f : ascii -> bool) (x y before after : string) :
  rsplit f y = Some (before, after) ->
  rsplit f (x ++ y) = Some ((x ++ before)%string, after).
Proof.
  intros H. induction x as [|c x IH]; simpl; [assumption|]. now rewrite IH.
Qed.

Lemma rsplit_app_None (f : ascii -> bool) (x y : string) :
  rsplit f y = None ->
  rsplit f (x ++ y)
  = match rsplit f x with
    | Some (before, after) => Some (before, (after ++ y)%string)
    | None => None
    end.
Proof.
  intros H. induction x as [|c x IH]; simpl; [assumption|].
  rewrite IH. destruct (rsplit f x) as [[b a]|]; [reflexivity|].
  destruct (f c); reflexivity.
Qed.

Lemma rsplit_None_app (f : ascii -> bool) (x y : string) :
  rsplit f (x ++ y) = None -> rsplit f x = None /\ rsplit f y = None.
Proof.
  induction x as [|c x IH]; simpl; [auto|].
  destruct (rsplit f (x ++ y)) as [[b a]|] eqn:E; [discriminate|].
  destruct (IH eq_refl) as [-> Hy]. destruct (f c); [discriminate|auto].
Qed.

Lemma rsplit_lower (f : ascii -> bool) (s : string) :
  (forall c, f (lower_char c) = f c) ->
  rsplit f (lower s) = None -> rsplit f s = None.
Proof.
  intros Hf. induction s as [|c s IH]; simpl; [reflexivity|].
  destruct (rsplit f (lower s)) as [[b a]|]; [discriminate|].
  rewrite IH by reflexivity. rewrite Hf.
  destruct (f c); [discriminate|reflexivity].
Qed.

Lemma basename_app (nt : bool) (x y : string) :
  rsplit (is_sep nt) y = None ->
  basename nt (x ++ y) = (basename nt x ++ y)%string.
Proof.
  intros H. unfold basename. rewrite (rsplit_app_None _ x y H).
  destruct (rsplit (is_sep nt) x) as [[b a]|]; reflexivity.
Qed.

(** A path is a directory part followed by its last component. *)
Lemma basename_split (nt : bool) (p : string) :
  exists dir,
    p = (dir ++ basename nt p)%string
    /\ rsplit (is_sep nt) (basename nt p) = None
    /\ forall y, rsplit (is_sep nt) y = None -> basename nt (dir ++ y) = y.
Proof.
  unfold basename. destruct (rsplit (is_sep nt) p) as [[b a]|] eqn:E.
  - destruct (rsplit_Some _ _ _ _ E) as (c & Hc & -> & Hn).
    exists (b ++ String c "")%string. repeat split.
    + now rewrite append_assoc.
    + assumption.
    + intros y Hy. rewrite append_assoc. simpl.
      rewrite (rsplit_app_Some _ b (String c y) "" y); [reflexivity|].
      simpl. now rewrite Hy, Hc.
  - exists EmptyString. repeat split; [assumption|].
    intros y Hy. simpl. now rewrite Hy.
Qed.

Lemma splitext_ext_app (nt : bool) (root ext : string) :
  all_dots (basename nt root) = false ->
  rsplit is_dot ext = None ->
  rsplit (is_sep nt) (String "." ext) = None ->
  splitext_ext nt (root ++ String "." ext) = String "." ext.
Proof.
  intros Hstem Hdot Hsep. unfold splitext_ext.
  rewrite (basename_app nt root _ Hsep).
  rewrite (rsplit_app_Some is_dot (basename nt root) (String "." ext) "" ext)
    by (simpl; now rewrite Hdot).
  now rewrite append_nil_r, Hstem.
Qed.

Lemma splitext_ext_inv (nt : bool) (p : string) :
  splitext_ext nt p <> EmptyString ->
  exists root,
    p = (root ++ splitext_ext nt p)%string
    /\ all_dots (basename nt root) = false.
Proof.
  unfold splitext_ext. intros H.
  destruct (rsplit is_dot (basename nt p)) as [[stem ext]|] eqn:E;
    [|now elim H].
  destruct (all_dots stem) eqn:Hstem; [now elim H|].
  destruct (rsplit_Some _ _ _ _ E) as (c & Hc & Hb & _).
  apply Ascii.eqb_eq in Hc. subst c.
  destruct (basename_split nt p) as (dir & Hp & Hsep & Hdir).
  rewrite Hb in Hsep. apply rsplit_None_app in Hsep as [Hsep _].
  exists (dir ++ stem)%string. split.
  - rewrite append_assoc, <- Hb. exact Hp.
  - now rewrite (Hdir stem Hsep).
Qed.

(** *** Lower case *)

Lemma lower_char_marks (nt : bool) (c : ascii) :
  is_dot (lower_char c) = is_dot c /\ is_sep nt (lower_char c) = is_sep nt c.
Proof.
  destruct nt, c as [[] [] [] [] [] [] [] []]; vm_compute; split; reflexivity.
Qed.

Lemma lower_app (x y : string) : lower (x ++ y) = (lower x ++ lower y)%string.
Proof. induction x as [|c x IH]; simpl; [reflexivity|now rewrite IH]. Qed.

Lemma ends_with_app (x suffix : string) : ends_with (x ++ suffix) suffix = true.
Proof.
  induction x as [|c x IH].
  - cbn [append]. destruct suffix; cbn [ends_with];
      now rewrite String.eqb_refl.
  - cbn [append ends_with]. rewrite IH. apply orb_true_r.
Qed.

(** An extension that is [.csv] or [.xlsx] up to case: a dot followed by
    letters. *)
Lemma table_extension_shape (nt : bool) (e : string) :
  lower e = ".csv"%string \/ lower e = ".xlsx"%string ->
  exists ext,
    e = String "." ext
    /\ rsplit is_dot ext = None
    /\ rsplit (is_sep nt) (String "." ext) = None.
Proof.
  intros H.
  assert (rsplit (is_sep nt) (lower e) = None) as Hsep
    by (destruct H as [-> | ->]; destruct nt; reflexivity).
  apply (rsplit_lower (is_sep nt)) in Hsep;
    [|intros; apply lower_char_marks].
  destruct e as [|c ext]; [destruct H; discriminate|].
  assert (lower_char c = "."%char /\ rsplit is_dot (lower ext) = None)
    as [Hc Hdot].
  { simpl in H. destruct H as [H|H]; injection H as Hc Hext;
      rewrite Hext; split; (assumption || reflexivity). }
  assert (c = "."%char) as ->.
  { apply Ascii.eqb_eq. fold (is_dot c).
    rewrite <- (proj1 (lower_char_marks nt c)), Hc. reflexivity. }
  exists ext. split; [reflexivity|]. split; [|assumption].
  apply rsplit_lower; [|assumption]. intros; apply (lower_char_marks nt).
Qed.

(** *** The paths that [read_file] accepts *)

Lemma file_format_extension (nt : bool) (p : string) :
  (exists fmt, file_format nt p = Ok fmt)
  <-> lower (splitext_ext nt p) = ".csv"%string
      \/ lower (splitext_ext nt p) = ".xlsx"%string.
Proof.
  unfold file_format.
  destruct (String.eqb_spec (lower (splitext_ext nt p)) ".csv") as [E|E].
  - split; [now left|]. intros _. now exists Csv.
  - destruct (String.eqb_spec (lower (splitext_ext nt p)) ".xlsx") as [E'|E'].
    + split; [now right|]. intros _. now exists Xlsx.
    + split; [intros (fmt & H); discriminate|]. intros [H|H]; contradiction.
Qed.

Lemma file_format_accepts (nt : bool) (p : string) :
  (exists fmt, file_format nt p = Ok fmt)
  <-> exists root e,
        p = (root ++ e)%string
        /\ (lower e = ".csv"%string \/ lower e = ".xlsx"%string)
        /\ all_dots (basename nt root) = false.
Proof.
  rewrite file_format_extension. split.
  - intros H.
    assert (splitext_ext nt p <> EmptyString) as Hne
      by (intros E; rewrite E in H; destruct H; discriminate).
    destruct (splitext_ext_inv nt p Hne) as (root & Hp & Hstem).
    exists root, (splitext_ext nt p). repeat split; assumption.
  - intros (root & e & -> & He & Hstem).
    destruct (table_extension_shape nt e He) as (ext & -> & Hdot & Hsep).
    now rewrite (splitext_ext_app nt root ext Hstem Hdot Hsep).
Qed.

Lemma file_format_suffix (nt : bool) (p : string) (fmt : format) :
  file_format nt p = Ok fmt -> has_table_suffix p = true.
Proof.
  intros H.
  destruct (proj1 (file_format_accepts nt p)) as (root & e & -> & He & _);
    [now exists fmt|].
  unfold has_table_suffix. rewrite lower_app.
  destruct He as [-> | ->]; rewrite ends_with_app;
    [reflexivity|apply orb_true_r].
Qed.

Lemma file_format_cases (nt : bool) (p : string) :
  (exists fmt, file_format nt p = Ok fmt)
  \/ file_format nt p = Raise ValueError.
Proof.
  unfold file_format.
  destruct (String.eqb (lower (splitext_ext nt p)) ".csv"); [left; now exists Csv|].
  destruct (String.eqb (lower (splitext_ext nt p)) ".xlsx");
    [left; now exists Xlsx|now right].
Qed.

End PathFacts.

(** * Tables without repeated names, and the set of the loop *)

Module ReaderFacts.
Import CensusFacts BuildFacts PlanFacts UniqueFacts.

Lemma instances_NoDup (df : DataFrame) (name : string) (data : Series) :
  NoDup (columns_tolist df) -> In (name, data) (cols df) ->
  instances df name = [(name, data)].
Proof.
  destruct df as [rows l]. unfold instances, columns_tolist. cbn [cols].
  induction l as [|[k d] l IH]; intros Hnd Hin; [destruct Hin|].
  inversion Hnd as [|? ? Hk Hnd']; subst. simpl in *.
  destruct Hin as [E|Hin].
  - injection E as -> ->. rewrite String.eqb_refl. f_equal.
    apply (instances_nil (mkDataFrame rows l) name Hk).
  - assert (In name (map fst l)) as Hname
      by (apply (in_map fst _ _ Hin)).
    destruct (String.eqb_spec k name) as [->|Hne]; [contradiction|].
    now apply IH.
Qed.

(** The column kept for a name is the target column of exactly that name. *)
Lemma column_or_nan_present (df : DataFrame) (name : string) (data : Series)
  (rows : nat) :
  NoDup (columns_tolist df) -> In (name, data) (cols df) ->
  column_or_nan df name rows = data.
Proof.
  intros Hnd Hin. unfold column_or_nan, column_of.
  now rewrite (instances_NoDup df name data Hnd Hin).
Qed.

Lemma column_or_nan_absent (df : DataFrame) (name : string) (rows : nat) :
  ~ In name (columns_tolist df) ->
  column_or_nan df name rows = repeat NaN rows.
Proof.
  intros H. unfold column_or_nan, column_of.
  now rewrite (instances_nil df name H).
Qed.

(** The loop asks the set for membership only: with any [set.add] it
    computes the first occurrences. *)
Lemma unique_loop_with_spec
  (set_add : string -> list string -> list string) (l u p seen : list string) :
  set_like set_add ->
  (forall x, In x p <-> In x seen) ->
  unique_loop_with set_add l u p = u ++ first_from seen l.
Proof.
  intros Hadd. revert u p seen.
  induction l as [|a l IH]; intros u p seen H; simpl.
  - now rewrite app_nil_r.
  - assert (existsb (String.eqb a) p = existsb (String.eqb a) seen) as ->.
    { destruct (existsb (String.eqb a) seen) eqn:E.
      - apply mem_In. apply H. now apply mem_In.
      - apply mem_false. rewrite H. now apply mem_false. }
    destruct (existsb (String.eqb a) seen); [now apply IH|].
    rewrite (IH _ _ (a :: seen)), <- app_assoc; [reflexivity|].
    intros x. rewrite (Hadd x a p). simpl. rewrite H.
    intuition congruence.
Qed.

Lemma standardize_data_with_eq
  (set_add : string -> list string -> list string) (base_df new_df : DataFrame) :
  set_like set_add ->
  standardize_data_with set_add base_df new_df = standardize_data base_df new_df.
Proof.
  intros Hadd. unfold standardize_data_with, standardize_data, standardized.
  rewrite (unique_loop_with_spec set_add _ [] [] [] Hadd) by tauto.
  now rewrite unique_columns_spec.
Qed.

End ReaderFacts.

(** * The scenarios of the specification, run on the code *)

(** Scenario B on a reference frame that carries the label [B] twice, which
    no reader returns: the data are placed as expected and the warning is
    the expected one; the two columns of [B] are saved as [B_1] and
    [B_2]. *)
Example scenario_B :
  standardize_data base_ABB new_AB
  = ([("B"%string, 2, 1)],
     Ok (mkDataFrame 2 [("A"%string, [Num 1; Num 2]);
                        ("B_1"%string, [Num 9; Num 9]);
                        ("B_2"%string, [NaN; NaN])])).
Proof. reflexivity. Qed.

(** Scenario E: a target without rows gives three columns without rows. *)
Example scenario_E :
  standardize_data base_ABB new_AB_empty
  = ([("B"%string, 2, 1)],
     Ok (mkDataFrame 0 [("A"%string, []); ("B_1"%string, []);
                        ("B_2"%string, [])])).
Proof. reflexivity. Qed.

(** Scenarios A and B from files whose header row is [A, B, B]: the
    reference is read with the labels [A, B, B.1]. *)
Example scenario_A_as_read :
  standardize_data read_base_A_B_B read_new_A_B_B
  = ([], Ok (mkDataFrame 2 [("A"%string, [Num 1; Num 2]);
                            ("B"%string, [Num 3; Num 4]);
                            ("B"%string, [Num 5; Num 6])])).
Proof. reflexivity. Qed.

Example scenario_B_as_read :
  standardize_data read_base_A_B_B new_AB
  = ([("B.1"%string, 1, 0)],
     Ok (mkDataFrame 2 [("A"%string, [Num 1; Num 2]);
                        ("B"%string, [Num 9; Num 9]);
                        ("B"%string, [NaN; NaN])])).
Proof. reflexivity. Qed.

(** The first reference name is missing from the target: its column is
    filled when the first column of the target is assigned. *)
Example first_name_missing :
  standardize_data base_CA new_A
  = ([("C"%string, 1, 0)],
     Ok (mkDataFrame 2 [("C"%string, [NaN; NaN]); ("A"%string, [Num 1; Num 2])])).
Proof. reflexivity. Qed.

(** The target column [Extra] is dropped; the saved column named [Extra]
    holds the data of the target column [Extra.1]. *)
Example stripped_name_of_another_column :
  standardize_data base_Extra1 new_Extra_Extra1
  = ([], Ok (mkDataFrame 2 [("Extra"%string, [Num 1; Num 2])])).
Proof. reflexivity. Qed.

(** * The census *)

Import CensusFacts BuildFacts PlanFacts.

(** C6.  For every table the census holds, for each name, the number of
    columns that carry it; the order sequence ([unique_columns], which is also
    the iteration order of the dictionary) lists each distinct name exactly
    once, in the order of the first occurrences; the counts add up to the
    number of columns.  Nothing is assumed of the table: it may have no
    column, repeated names or empty names. *)
Theorem census_correct (df : DataFrame) :
  (forall name,
     dict_get (column_counts (columns_tolist df)) name 0 = occurrences df name)
  /\ (forall name,
        dict_contains (column_counts (columns_tolist df)) name = true
        <-> In name (columns_tolist df))
  /\ map fst (column_counts (columns_tolist df))
     = unique_columns (columns_tolist df)
  /\ NoDup (unique_columns (columns_tolist df))
  /\ (forall name,
        In name (unique_columns (columns_tolist df))
        <-> In name (columns_tolist df))
  /\ StronglySorted lt
       (map (fun name => index_of name (columns_tolist df))
          (unique_columns (columns_tolist df)))
  /\ list_sum (map snd (column_counts (columns_tolist df))) = length (cols df).
Proof.
  split; [|split; [|split; [|split; [|split; [|split]]]]].
  - intros name. now rewrite column_counts_get, count_label_columns.
  - intros name. apply column_counts_contains.
  - apply column_counts_keys.
  - rewrite unique_columns_spec. apply first_from_NoDup.
  - intros name. apply unique_columns_In.
  - rewrite unique_columns_spec. apply first_from_sorted.
  - unfold column_counts. fold (counts_from [] (columns_tolist df)).
    rewrite counts_from_sum. unfold columns_tolist. now rewrite length_map.
Qed.

(** * Stripping the dot-number suffix *)

(** C5, as stated, fails: on the label [A.1.2] the first application gives
    [A.1] and the second one [A]. *)
Lemma strip_twice_differs :
  Re.sub "A.1.2" = "A.1"%string
  /\ Re.sub (Re.sub "A.1.2") = "A"%string
  /\ Re.sub (Re.sub "A.1.2") <> Re.sub "A.1.2".
Proof. repeat split. vm_compute. discriminate. Qed.

(** C5, amended.  One application removes one trailing group of a dot and
    digits.  Applying the step twice gives the same as applying it once
    exactly for the names whose once-stripped form does not end in such a
    group again. *)
Theorem strip_twice_iff (s : string) :
  Re.sub (Re.sub s) = Re.sub s <-> Re.search (Re.sub s) = false.
Proof. symmetry. apply ReFacts.search_sub_fixed. Qed.

(** * The names that are saved *)




(** * The rows that are saved *)

(** C2, as stated, fails: the reference has the column [A], the target has
    two rows and no column [A]; the saved table has the column [A] and no
    row. *)
Lemma unmatched_reference_gives_no_rows :
  exists out,
    snd (standardize_data base_A new_B) = Ok out
    /\ cols out = [("A"%string, [])]
    /\ nrows out = 0
    /\ nrows new_B = 2.
Proof. eexists. repeat split. Qed.

(** C2, amended.  Let the target be a table in which every column has the
    target's row count, and let the frame be built.  Every saved column has
    the row count of the saved table and is either all [NaN] or the data of a
    target column, unchanged.  The saved table has the target's row count as
    soon as one reference name is the name of a target column, whatever its
    place in the reference, and also when the target has no row; when no
    reference name is the name of a target column it has no row. *)
Theorem output_rows (base_df new_df out : DataFrame) :
  well_formed new_df ->
  snd (standardize_data base_df new_df) = Ok out ->
  well_formed out
  /\ padded_or_copied new_df out
  /\ (nrows new_df = 0
      \/ (exists col, In col (columns_tolist base_df)
                      /\ In col (columns_tolist new_df)) ->
      nrows out = nrows new_df)
  /\ ((forall col, In col (columns_tolist base_df) ->
                   ~ In col (columns_tolist new_df)) ->
      nrows out = 0).
Proof.
  cbn [snd standardize_data]. intros Hwf H.
  apply standardized_Ok_inv in H as [Hall ->].
  pose proof (plan_from_target base_df new_df) as Hp.
  pose proof (run_plan_invariant new_df Hwf _ _
                (empty_frame_invariant new_df) Hp) as Hinv.
  destruct (remove_column_numbering_invariant _ _ Hinv) as (H1 & H2 & H3).
  split; [assumption|]. split; [assumption|].
  change (nrows (remove_column_numbering
                   (run_plan (plan base_df new_df) empty_frame)))
    with (nrows (run_plan (plan base_df new_df) empty_frame)) in *.
  split.
  - intros [H0|(col & Hb & Hn)].
    + destruct H2 as [H2|H2]; lia.
    + apply (run_plan_rows_data new_df Hwf); [now left|assumption|].
      apply (plan_has_data base_df new_df col Hb).
      pose proof (Hall col Hb). pose proof (occurrences_pos new_df col Hn). lia.
  - intros Hnone.
    now rewrite (run_plan_rows_empty _ _ (plan_empty _ _ Hnone)).
Qed.

Lemma output_rows_witness :
  well_formed new_AB
  /\ snd (standardize_data base_ABB new_AB)
     = Ok (mkDataFrame 2 [("A", [Num 1; Num 2]); ("B_1", [Num 9; Num 9]);
                          ("B_2", [NaN; NaN])])
  /\ well_formed (mkDataFrame 2 [("A", [Num 1; Num 2]); ("B_1", [Num 9; Num 9]);
                                 ("B_2", [NaN; NaN])]).
Proof.
  assert (well_formed new_AB) as Hwf by (repeat constructor).
  split; [exact Hwf|]. split; [reflexivity|].
  apply (output_rows base_ABB new_AB _ Hwf). reflexivity.
Defined.

(** * The number and the order of the saved columns *)





(** * The warnings *)



(** * Matching by exact name *)

(** C8.  For a reference and a target as they are read, each without
    repeated names, the target being a table whose columns all have its row
    count.  The saved table has one column for each reference name, and
    what the column holds is decided by the equality of names alone: the
    data of the target column whose name is the reference name, unchanged,
    when there is one; [NaN] in every row when there is none, whatever other
    columns the target has, [name.1] among them, and then the shortage is
    reported with zero columns found.  A reference [Header] and a target
    [Header.1] give an empty column [Header]; the data of [Header.1] are in
    no saved column, since every saved column is that of a reference
    name. *)
Theorem exact_name_matching (base_df new_df : DataFrame) :
  NoDup (columns_tolist base_df) -> NoDup (columns_tolist new_df) ->
  well_formed new_df ->
  exists out,
    snd (standardize_data base_df new_df) = Ok out
    /\ cols out
       = map (fun name =>
                (Re.sub name, column_or_nan new_df name (nrows out)))
           (columns_tolist base_df)
    /\ (forall name data,
          In (name, data) (cols new_df) ->
          column_or_nan new_df name (nrows out) = data)
    /\ (forall name,
          ~ In name (columns_tolist new_df) ->
          column_or_nan new_df name (nrows out) = repeat NaN (nrows out))
    /\ (forall name i,
          In name (columns_tolist base_df) ->
          ~ In name (columns_tolist new_df) ->
          In (dot_numbered name i) (columns_tolist new_df) ->
          In (Re.sub name, repeat NaN (nrows out)) (cols out)
          /\ In (name, 1, 0) (fst (standardize_data base_df new_df))).
Proof.
  intros Hb Hn Hwf.
  cbn [snd]. unfold standardize_data at 1. cbn [snd].
  rewrite (UniqueFacts.standardized_unique _ _ Hb Hn Hwf).
  eexists. split; [reflexivity|]. cbn [cols nrows].
  split; [reflexivity|].
  split; [intros; now apply ReaderFacts.column_or_nan_present|].
  split; [intros; now apply ReaderFacts.column_or_nan_absent|].
  intros name i Hname Hnot _. split.
  - apply in_map_iff. exists name. split; [|assumption].
    f_equal. now apply ReaderFacts.column_or_nan_absent.
  - apply warning_iff. split; [assumption|].
    pose proof (UniqueFacts.occurrences_NoDup base_df name Hb).
    pose proof (occurrences_pos base_df name Hname).
    pose proof (UniqueFacts.occurrences_absent new_df name Hnot). lia.
Qed.

(** Scenario C with a second column: the reference [Header, Id], the target
    [Header.1, Id]. *)
Lemma exact_name_matching_witness :
  NoDup (columns_tolist base_Header_Id)
  /\ NoDup (columns_tolist new_Header1_Id)
  /\ well_formed new_Header1_Id
  /\ standardize_data base_Header_Id new_Header1_Id
     = ([("Header"%string, 1, 0)],
        Ok (mkDataFrame 2 [("Header"%string, [NaN; NaN]);
                           ("Id"%string, [Num 1; Num 2])]))
  /\ exists out,
       snd (standardize_data base_Header_Id new_Header1_Id) = Ok out
       /\ cols out
          = map (fun name =>
                   (Re.sub name, column_or_nan new_Header1_Id name (nrows out)))
              (columns_tolist base_Header_Id).
Proof.
  assert (NoDup (columns_tolist base_Header_Id)) as Hb.
  { repeat constructor; simpl; intros H; decompose [or] H;
      (discriminate || contradiction). }
  assert (NoDup (columns_tolist new_Header1_Id)) as Hn.
  { repeat constructor; simpl; intros H; decompose [or] H;
      (discriminate || contradiction). }
  assert (well_formed new_Header1_Id) as Hwf by (repeat constructor).
  split; [exact Hb|]. split; [exact Hn|]. split; [exact Hwf|].
  split; [reflexivity|].
  destruct (exact_name_matching base_Header_Id new_Header1_Id Hb Hn Hwf)
    as (out & H & Hcols & _).
  exists out. split; [exact H|exact Hcols].
Defined.

(** * Columns of the target that the reference does not name *)

(** C9.  A column of the target whose name is not a name of the reference
    contributes nothing: the warnings and the saved table are those obtained
    from the target without that column. *)
Theorem unreferenced_column_dropped (base_df : DataFrame) (rows : nat)
  (before after : list (string * Series)) (c : string * Series) :
  ~ In (fst c) (columns_tolist base_df) ->
  standardize_data base_df (mkDataFrame rows (before ++ c :: after))
  = standardize_data base_df (mkDataFrame rows (before ++ after)).
Proof.
  intros H. apply standardize_data_ext. intros col Hc.
  unfold instances. cbn [cols]. rewrite !filter_app. simpl.
  destruct (String.eqb_spec (fst c) col) as [E|]; [|reflexivity].
  rewrite E in H. contradiction.
Qed.

Lemma unreferenced_column_dropped_witness :
  ~ In "Extra"%string (columns_tolist base_A)
  /\ standardize_data base_A new_A_Extra = standardize_data base_A new_A
  /\ standardize_data base_A new_A_Extra
     = ([], Ok (mkDataFrame 2 [("A"%string, [Num 1; Num 2])])).
Proof.
  assert (~ In "Extra"%string (columns_tolist base_A)) as H
    by (simpl; intros [E|[]]; discriminate).
  split; [exact H|]. split; [|reflexivity].
  exact (unreferenced_column_dropped base_A 2 [("A"%string, [Num 1; Num 2])] []
           ("Extra"%string, [Num 7; Num 8]) H).
Defined.

(** * Determinism *)

(** C10.  The only part of a run that is not fixed by the two tables is the
    order in which the set [processed_columns] keeps its elements.  Whatever
    [set.add] does with that order in each of two runs, the runs print the
    same warnings and save the same table, or raise the same exception, on
    references with the same names and targets with the same columns, equal
    tables in particular: the set is only asked whether it holds a name.
    The outcome is the one computed by [standardize_data]. *)
Theorem standardize_data_deterministic
  (set_add1 set_add2 : string -> list string -> list string)
  (base1 base2 new1 new2 : DataFrame) :
  set_like set_add1 -> set_like set_add2 ->
  columns_tolist base1 = columns_tolist base2 ->
  cols new1 = cols new2 ->
  standardize_data_with set_add1 base1 new1
  = standardize_data_with set_add2 base2 new2
  /\ standardize_data_with set_add1 base1 new1 = standardize_data base1 new1.
Proof.
  intros H1 H2 Hb Hn.
  rewrite (ReaderFacts.standardize_data_with_eq _ _ _ H1).
  rewrite (ReaderFacts.standardize_data_with_eq _ _ _ H2).
  split; [|reflexivity].
  rewrite (standardize_data_ext base1 new1 new2)
    by (intros; unfold instances; now rewrite Hn).
  unfold standardize_data, standardized. now rewrite Hb.
Qed.

(** Two runs on the tables of Scenario A as they are read, one with a set
    that puts a new element in front and one with a set that puts it
    last. *)
Lemma standardize_data_deterministic_witness :
  set_like cons /\ set_like (fun x s => s ++ [x])
  /\ standardize_data_with cons read_base_A_B_B read_new_A_B_B
     = standardize_data_with (fun x s => s ++ [x])
         read_base_A_B_B read_new_A_B_B.
Proof.
  assert (set_like cons) as H1.
  { intros x y s. simpl. intuition congruence. }
  assert (set_like (fun x s => s ++ [x])) as H2.
  { intros x y s. rewrite in_app_iff. simpl. intuition congruence. }
  split; [exact H1|]. split; [exact H2|].
  exact (proj1 (standardize_data_deterministic cons (fun x s => s ++ [x])
                  read_base_A_B_B read_base_A_B_B
                  read_new_A_B_B read_new_A_B_B H1 H2 eq_refl eq_refl)).
Defined.

(** * Further properties of [standardize_data] *)

Import RenameFacts UniqueFacts PathFacts.

(** X1.  The warnings are, in the order in which the names first occur in
    the reference, one entry for each distinct reference name that fewer
    columns of the target carry, with the number of columns of that name in
    the reference and in the target. *)
Theorem warnings_in_reference_order (base_df new_df : DataFrame) :
  fst (standardize_data base_df new_df)
  = flat_map
      (fun col =>
         if occurrences new_df col <? occurrences base_df col
         then [(col, occurrences base_df col, occurrences new_df col)]
         else [])
      (unique_columns (columns_tolist base_df)).
Proof. cbn [fst standardize_data]. apply missing_instances_spec. Qed.

(** X3.  The warnings and the saved table do not depend on the order of the
    columns of the target. *)
Theorem target_column_order_irrelevant (base_df new1 new2 : DataFrame) :
  Permutation (cols new1) (cols new2) ->
  standardize_data base_df new1 = standardize_data base_df new2.
Proof. apply standardize_data_permutation. Qed.

Lemma target_column_order_irrelevant_witness :
  Permutation (cols new_AB) (cols (mkDataFrame 2 (rev (cols new_AB))))
  /\ standardize_data base_ABB new_AB
     = standardize_data base_ABB (mkDataFrame 2 (rev (cols new_AB))).
Proof.
  assert (Permutation (cols new_AB) (cols (mkDataFrame 2 (rev (cols new_AB)))))
    as H by apply perm_swap.
  split; [exact H|].
  exact (target_column_order_irrelevant base_ABB new_AB _ H).
Defined.

(** X4.  For a reference and a target whose names are strings, without
    repeated names, the target being a table whose columns all have its row
    count: the frame is built;
    it has one column for each column of the reference, in the order of the
    reference, named by the reference name without one trailing group of a
    dot and digits; the column holds the data of the target column of that
    name, unchanged, or [NaN] in every row when the target has no such
    column; the table has the rows of the target when some reference name is
    a target name and no row otherwise. *)
Theorem unique_names_standardized (base_df new_df : DataFrame) :
  NoDup (columns_tolist base_df) -> NoDup (columns_tolist new_df) ->
  well_formed new_df ->
  snd (standardize_data base_df new_df)
  = Ok (mkDataFrame
          (if some_name_matched base_df new_df then nrows new_df else 0)
          (map (fun name =>
                  (Re.sub name,
                   column_or_nan new_df name
                     (if some_name_matched base_df new_df
                      then nrows new_df else 0)))
             (columns_tolist base_df))).
Proof. cbn [snd standardize_data]. apply standardized_unique. Qed.

Lemma unique_names_standardized_witness :
  NoDup (columns_tolist base_CA) /\ NoDup (columns_tolist new_A_Extra)
  /\ well_formed new_A_Extra
  /\ snd (standardize_data base_CA new_A_Extra)
     = Ok (mkDataFrame 2 [("C"%string, [NaN; NaN]);
                          ("A"%string, [Num 1; Num 2])]).
Proof.
  assert (NoDup (columns_tolist base_CA)) as Hb.
  { repeat constructor; simpl; intros H; decompose [or] H;
      (discriminate || contradiction). }
  assert (NoDup (columns_tolist new_A_Extra)) as Hn.
  { repeat constructor; simpl; intros H; decompose [or] H;
      (discriminate || contradiction). }
  assert (well_formed new_A_Extra) as Hwf by (repeat constructor).
  split; [exact Hb|]. split; [exact Hn|]. split; [exact Hwf|].
  exact (unique_names_standardized base_CA new_A_Extra Hb Hn Hwf).
Defined.

(** X5.  When the frame is built and the labels assigned along the way are
    pairwise distinct, the saved table has as many columns as the
    reference; its names are those labels, each without one trailing group
    of a dot and digits; and each place holds what was assigned to it,
    aligned on the rows of the table: for a reference name the target
    carries once, the data of that column in the first place of the name
    and [NaN] in its further places. *)
Theorem distinct_labels_output (base_df new_df out : DataFrame) :
  well_formed new_df ->
  snd (standardize_data base_df new_df) = Ok out ->
  NoDup (transient_names (columns_tolist base_df)) ->
  length (cols out) = length (cols base_df)
  /\ columns_tolist out
     = map Re.sub (transient_names (columns_tolist base_df))
  /\ cols out
     = map (fun a => (Re.sub (fst a), reindex (snd a) (nrows out)))
         (plan base_df new_df).
Proof.
  cbn [snd standardize_data]. intros Hwf H Hnd.
  destruct (standardized_distinct _ _ _ H Hnd) as [Hl Hc].
  split; [assumption|]. split; [assumption|].
  now apply (standardized_cols new_df Hwf).
Qed.

Lemma distinct_labels_output_witness :
  well_formed new_AB
  /\ NoDup (transient_names (columns_tolist base_ABB))
  /\ cols (mkDataFrame 2 [("A"%string, [Num 1; Num 2]);
                          ("B_1"%string, [Num 9; Num 9]);
                          ("B_2"%string, [NaN; NaN])])
     = map (fun a => (Re.sub (fst a), reindex (snd a) 2))
         (plan base_ABB new_AB).
Proof.
  assert (well_formed new_AB) as Hwf by (repeat constructor).
  assert (NoDup (transient_names (columns_tolist base_ABB))) as Hnd.
  { repeat constructor; simpl; intros H; decompose [or] H;
      (discriminate || contradiction). }
  split; [exact Hwf|]. split; [exact Hnd|].
  exact (proj2 (proj2 (distinct_labels_output base_ABB new_AB _ Hwf eq_refl Hnd))).
Defined.

(** X6.  Standardising an already standardised table changes nothing: for
    a reference and a target without repeated names, no reference name
    ending in a group of a dot and digits, a second run on the saved table
    prints no warning and saves the same table. *)
Theorem standardizing_twice (base_df new_df out : DataFrame) :
  NoDup (columns_tolist base_df) -> NoDup (columns_tolist new_df) ->
  well_formed new_df ->
  (forall name, In name (columns_tolist base_df) -> Re.search name = false) ->
  snd (standardize_data base_df new_df) = Ok out ->
  standardize_data base_df out = ([], Ok out).
Proof. cbn [snd standardize_data]. apply standardize_data_again. Qed.

Lemma standardizing_twice_witness :
  snd (standardize_data base_CA new_A_Extra)
  = Ok (mkDataFrame 2 [("C"%string, [NaN; NaN]); ("A"%string, [Num 1; Num 2])])
  /\ standardize_data base_CA
       (mkDataFrame 2 [("C"%string, [NaN; NaN]); ("A"%string, [Num 1; Num 2])])
     = ([], Ok (mkDataFrame 2 [("C"%string, [NaN; NaN]);
                               ("A"%string, [Num 1; Num 2])])).
Proof.
  split; [reflexivity|].
  apply (standardizing_twice base_CA new_A_Extra).
  - repeat constructor; simpl; intros H; decompose [or] H;
      (discriminate || contradiction).
  - repeat constructor; simpl; intros H; decompose [or] H;
      (discriminate || contradiction).
  - repeat constructor.
  - simpl. intros name H. decompose [or] H; subst; try reflexivity.
    contradiction.
  - reflexivity.
Defined.

(** X14.  When the frame is built, the saved table never has more columns
    than the reference, and it has as many exactly when the labels assigned
    along the way are pairwise distinct, that is when no numbered label
    [name_i] is also a label assigned for another reference name. *)
Theorem column_count_bound (base_df new_df out : DataFrame) :
  snd (standardize_data base_df new_df) = Ok out ->
  length (cols out) <= length (cols base_df)
  /\ (length (cols out) = length (cols base_df)
      <-> NoDup (transient_names (columns_tolist base_df))).
Proof. cbn [snd standardize_data]. apply standardized_count. Qed.

Lemma column_count_bound_witness :
  snd (standardize_data base_A1_A_A new_A)
  = Ok (mkDataFrame 2 [("A_1"%string, [Num 1; Num 2]);
                       ("A_2"%string, [NaN; NaN])])
  /\ 2 <= length (cols base_A1_A_A).
Proof.
  split; [reflexivity|].
  exact (proj1 (column_count_bound base_A1_A_A new_A _ eq_refl)).
Defined.

(** * Further properties of [remove_column_numbering] *)

(** X7.  The function as it is written, with its dictionary from old to
    new names: no lookup fails, also when names are repeated; each column
    gets its own name without one trailing group of a dot and digits; the
    data, their order and the rows are unchanged. *)
Theorem remove_column_numbering_as_written (df : DataFrame) :
  exists out,
    remove_column_numbering_loop df = Ok out
    /\ columns_tolist out = map Re.sub (columns_tolist df)
    /\ map snd (cols out) = map snd (cols df)
    /\ nrows out = nrows df.
Proof.
  exists (remove_column_numbering df).
  split; [apply remove_column_numbering_loop_ok|].
  split; [apply remove_column_numbering_labels|].
  split; [|reflexivity].
  unfold remove_column_numbering. cbn [cols]. now rewrite map_map.
Qed.

(** X8.  The function returns the frame as it received it exactly when no
    name ends in a dot followed by digits. *)
Theorem renaming_changes_nothing_iff (df : DataFrame) :
  remove_column_numbering_loop df = Ok df
  <-> forall name, In name (columns_tolist df) -> Re.search name = false.
Proof.
  rewrite remove_column_numbering_loop_ok, <- remove_column_numbering_fixed.
  split; [intros H; now injection H|intros ->; reflexivity].
Qed.

(** X9.  The example of the docstring, in general: a frame whose names are
    headers numbered by a reader, [name.i], gets the headers back, with the
    data in place, whatever the headers and the numbers are. *)
Theorem numbered_headers_restored (rows : nat)
  (l : list (string * nat * Series)) :
  remove_column_numbering_loop
    (mkDataFrame rows
       (map (fun c => (dot_numbered (fst (fst c)) (snd (fst c)), snd c)) l))
  = Ok (mkDataFrame rows (map (fun c => (fst (fst c), snd c)) l)).
Proof.
  rewrite remove_column_numbering_loop_ok. f_equal.
  unfold remove_column_numbering. cbn [nrows cols]. f_equal.
  rewrite map_map. apply map_ext. intros [[name i] data]. cbn [fst snd].
  now rewrite sub_dot_numbered.
Qed.

(** * Properties of the paths *)

(** X10.  [normalize_path] ignores quotes around the path: any number of
    double or single quotes before and after a path gives the same
    normalized path as the path alone. *)
Theorem normalize_path_ignores_quotes (resolve : string -> string)
  (q1 path q2 : string) :
  all_quotes q1 = true -> all_quotes q2 = true ->
  normalize_path resolve (q1 ++ path ++ q2) = normalize_path resolve path.
Proof.
  intros H1 H2. unfold normalize_path. now rewrite strip_quotes_quoted.
Qed.

Lemma normalize_path_ignores_quotes_witness :
  all_quotes (String DQUOTE EmptyString) = true
  /\ normalize_path (fun p => p)
       (String DQUOTE EmptyString ++ "data/a.csv" ++ String DQUOTE EmptyString)
     = "data/a.csv"%string.
Proof.
  split; [reflexivity|].
  exact (normalize_path_ignores_quotes (fun p => p)
           (String DQUOTE EmptyString) "data/a.csv"
           (String DQUOTE EmptyString) eq_refl eq_refl).
Defined.

(** X11.  [read_file] hands the normalized path to a reader exactly when the
    path is some text followed by [.csv] or [.xlsx], in any case of the
    letters, and the last component of that text has a character other
    than a dot; for every other path it raises [ValueError] and calls no
    reader.  A path it accepts passes the extension test of the main
    loop. *)
Theorem read_file_accepts {R : Type} (nt : bool) (resolve : string -> string)
  (pd_read_csv pd_read_excel : string -> R) (file_path : string) :
  ((exists r, read_file nt resolve pd_read_csv pd_read_excel file_path = Ok r)
   <-> exists root e,
         normalize_path resolve file_path = (root ++ e)%string
         /\ (lower e = ".csv"%string \/ lower e = ".xlsx"%string)
         /\ all_dots (basename nt root) = false)
  /\ ((exists r, read_file nt resolve pd_read_csv pd_read_excel file_path = Ok r)
      \/ read_file nt resolve pd_read_csv pd_read_excel file_path
         = Raise ValueError)
  /\ ((exists r, read_file nt resolve pd_read_csv pd_read_excel file_path = Ok r)
      -> has_table_suffix (normalize_path resolve file_path) = true).
Proof.
  assert ((exists r, read_file nt resolve pd_read_csv pd_read_excel file_path
                     = Ok r)
          <-> exists fmt, file_format nt (normalize_path resolve file_path)
                          = Ok fmt) as Hiff.
  { unfold read_file.
    destruct (file_format nt (normalize_path resolve file_path)) as [fmt|e];
      simpl.
    - split; [intros _; now exists fmt|]. intros _. destruct fmt; eexists;
        reflexivity.
    - split; intros (x & H); discriminate. }
  split; [|split].
  - rewrite Hiff. apply file_format_accepts.
  - destruct (file_format_cases nt (normalize_path resolve file_path))
      as [H|H].
    + left. now apply Hiff.
    + right. unfold read_file. now rewrite H.
  - intros H. apply Hiff in H as (fmt & H).
    now apply (file_format_suffix nt _ fmt).
Qed.

(** X13.  A file whose name is only an extension, [.csv] or [.xlsx] in any
    case of the letters, in any directory: the extension test of the main
    loop lets its path through, and [read_file] raises [ValueError] on
    it. *)
Theorem extension_only_names_rejected {R : Type} (nt : bool)
  (resolve : string -> string) (pd_read_csv pd_read_excel : string -> R)
  (file_path dir e : string) :
  normalize_path resolve file_path = (dir ++ e)%string ->
  basename nt dir = EmptyString ->
  lower e = ".csv"%string \/ lower e = ".xlsx"%string ->
  has_table_suffix (normalize_path resolve file_path) = true
  /\ read_file nt resolve pd_read_csv pd_read_excel file_path
     = Raise ValueError.
Proof.
  intros Hpath Hdir He. unfold read_file. rewrite Hpath. split.
  - unfold has_table_suffix. rewrite lower_app.
    destruct He as [-> | ->]; rewrite ends_with_app;
      [reflexivity|apply orb_true_r].
  - destruct (table_extension_shape nt e He) as (ext & -> & Hdot & Hsep).
    unfold file_format, splitext_ext.
    rewrite (basename_app nt dir _ Hsep), Hdir. simpl. rewrite Hdot.
    reflexivity.
Qed.

Lemma extension_only_names_rejected_witness :
  normalize_path (fun p => p) "data/.CSV" = ("data/" ++ ".CSV")%string
  /\ basename false "data/" = EmptyString
  /\ has_table_suffix "data/.CSV" = true
  /\ read_file false (fun p => p) (fun p => p) (fun p => p) "data/.CSV"
     = Raise ValueError.
Proof.
  split; [reflexivity|]. split; [reflexivity|].
  exact (extension_only_names_rejected false (fun p => p) (fun p => p)
           (fun p => p) "data/.CSV" "data/" ".CSV" eq_refl eq_refl
           (or_introl eq_refl)).
Defined.
